(** * Credential resolver and profile store of the browser-use E2E skill

    A shallow embedding of
    [plugins/browser-automation/skills/browser-use-e2e/conftest.py] and
    [plugins/browser-automation/skills/browser-use-e2e/setup_profile.py],
    followed by the properties of the credential resolver
    ([build_sensitive_data]) and of the profile store ([get_profile_path],
    [browser_with_profile], [list_profiles]).

    Python [str] values are modelled as [string] (sequences of 8-bit
    characters), dictionaries as [gmap], the process environment
    [os.environ] as the list of its items in enumeration order. *)

From Stdlib Require Import Ascii.
From Stdlib Require String.
From stdpp Require Import gmap strings list fin_maps sorting.

(** ** Python string primitives *)

Module PyStr.

(** [s.endswith(suf)]: the last [len(suf)] characters of [s] are [suf]. *)
Definition endswith (s suf : string) : bool :=
  let n := String.length s in
  let m := String.length suf in
  (m <=? n)%nat && String.eqb (String.substring (n - m) m s) suf.

(** Right-most occurrence of the separator: the text before it and the
    text after it, or [None] when the separator does not occur. *)
Fixpoint rpartition (sep : ascii) (s : string) : option (string * string) :=
  match s with
  | EmptyString => None
  | String c r =>
      match rpartition sep r with
      | Some (h, t) => Some (String c h, t)
      | None => if Ascii.eqb c sep then Some (EmptyString, r) else None
      end
  end.

(** [s.rsplit(sep, 1)]: at most one split, made at the last separator. *)
Definition rsplit1 (sep : ascii) (s : string) : list string :=
  match rpartition sep s with
  | Some (h, t) => [h; t]
  | None => [s]
  end.

(** [s.rsplit(sep, 1)[0]]; the list is never empty. *)
Definition rsplit1_head (sep : ascii) (s : string) : string :=
  match rsplit1 sep s with
  | h :: _ => h
  | [] => s
  end.

(** [c.lower()] on the ASCII range; other characters are unchanged. *)
Definition lower_ascii (c : ascii) : ascii :=
  let n := nat_of_ascii c in
  if (65 <=? n)%nat && (n <=? 90)%nat then ascii_of_nat (n + 32) else c.

(** [s.lower()]. *)
Fixpoint lower (s : string) : string :=
  match s with
  | EmptyString => EmptyString
  | String c r => String (lower_ascii c) (lower r)
  end.

(** [sep in s] for a one-character [sep]. *)
Fixpoint has_char (sep : ascii) (s : string) : bool :=
  match s with
  | EmptyString => false
  | String c r => Ascii.eqb c sep || has_char sep r
  end.

(** Truth value of an [Optional[str]]: [None] and [''] are falsy. *)
Definition truthy (o : option string) : bool :=
  match o with
  | Some (String _ _) => true
  | _ => false
  end.

(** [a or b] on [Optional[str]]. *)
Definition or_else (a b : option string) : option string :=
  if truthy a then a else b.

End PyStr.

(** ** The credential resolver ([conftest.py]) *)

(** [os.environ]: the items of the mapping in enumeration order.  A mapping
    has distinct keys; no property below depends on it, since [getenv]
    returns the first item of a key. *)
Definition environ := list (string * string).

(** [os.getenv(key)]. *)
Fixpoint getenv (env : environ) (key : string) : option string :=
  match env with
  | [] => None
  | (k, v) :: rest => if String.eqb k key then Some v else getenv rest key
  end.

(** [DOMAIN_MAP], the static table of service prefixes. *)
Definition DOMAIN_MAP : gmap string string :=
  <["AWS" := "https://*.aws.amazon.com"]>
  (<["AZURE" := "https://*.azure.com"]>
  (<["BITBUCKET" := "https://*.bitbucket.org"]>
  (<["GOOGLE" := "https://*.google.com"]>
  (<["GMAIL" := "https://*.google.com"]>
  (<["GITLAB" := "https://*.gitlab.com"]>
  (<["GITHUB" := "https://*.github.com"]> ∅)))))).

(** The two local variables the loop of [build_sensitive_data] updates. *)
Record loop_state := LoopState {
  credentials : gmap string (gmap string string);
  processed_prefixes : gset string
}.

(** The test of line 51: the key names an identity variable. *)
Definition is_identity_key (key : string) : bool :=
  PyStr.endswith key "_USER" || PyStr.endswith key "_EMAIL".

(** The dict display of lines 82-85, keys inserted left to right. *)
Definition placeholders (prefix user_val pass_val : string) : gmap string string :=
  let prefix_lower := PyStr.lower prefix in
  let placeholder_user := prefix_lower +:+ "_user" in
  let placeholder_pass := prefix_lower +:+ "_pass" in
  <[placeholder_pass := pass_val]> (<[placeholder_user := user_val]> ∅).

(** Lines 59-85 for one prefix that passed the deduplication guard: the
    assignment [credentials[domain] = {...}] the iteration performs, or
    [None] when one of the three [continue] statements is taken. *)
Definition resolve (env : environ) (key prefix : string)
    : option (string * gmap string string) :=
  let user_val := getenv env key in
  if negb (PyStr.truthy user_val) then None else
  let pass_key := prefix +:+ "_PASS" in
  let pass_val := getenv env pass_key in
  if negb (PyStr.truthy pass_val) then None else
  let domain_key := prefix +:+ "_DOMAIN" in
  let domain := PyStr.or_else (getenv env domain_key) (DOMAIN_MAP !! prefix) in
  if negb (PyStr.truthy domain) then None else
  match user_val, pass_val, domain with
  | Some u, Some p, Some d => Some (d, placeholders prefix u p)
  | _, _, _ => None
  end.

(** One iteration of the loop of lines 49-85. *)
Definition loop_body (env : environ) (st : loop_state) (key : string) : loop_state :=
  if negb (is_identity_key key) then st else
  let prefix := PyStr.rsplit1_head "_"%char key in
  if bool_decide (prefix ∈ processed_prefixes st) then st else
  let seen := processed_prefixes st ∪ {[prefix]} in
  match resolve env key prefix with
  | None => LoopState (credentials st) seen
  | Some (domain, entry) => LoopState (<[domain := entry]> (credentials st)) seen
  end.

(** [build_sensitive_data()], with [os.environ] made an argument. *)
Definition build_sensitive_data (env : environ) : gmap string (gmap string string) :=
  credentials (foldl (loop_body env) (LoopState ∅ ∅) (fst <$> env)).

(** ** The iterations that pass the deduplication guard

    [visits] lists, in order, the iterations of the loop that reach line 57
    (the prefix is new), each with the key that introduced the prefix and
    the assignment of line 82 it performs, if any.  It is a view of the
    loop, related to it by [loop_credentials] below. *)

Record visit := Visit {
  v_key : string;
  v_prefix : string;
  v_write : option (string * gmap string string)
}.

Fixpoint visits (env : environ) (seen : gset string) (keys : list string) : list visit :=
  match keys with
  | [] => []
  | key :: rest =>
      if negb (is_identity_key key) then visits env seen rest else
      let prefix := PyStr.rsplit1_head "_"%char key in
      if bool_decide (prefix ∈ seen) then visits env seen rest else
      Visit key prefix (resolve env key prefix)
        :: visits env (seen ∪ {[prefix]}) rest
  end.

(** The visits of a whole run. *)
Definition trace (env : environ) : list visit := visits env ∅ (fst <$> env).

(** The effect of one visit on [credentials]. *)
Definition apply_write (c : gmap string (gmap string string)) (v : visit)
    : gmap string (gmap string string) :=
  match v_write v with
  | Some (domain, entry) => <[domain := entry]> c
  | None => c
  end.

(** The domain a visit assigns to, if it assigns. *)
Definition v_domain (v : visit) : option string := fst <$> v_write v.

(** ** Paths ([pathlib.PurePosixPath]) *)

Module PyPath.

(** A parsed path: its root ([''], ['/'] or ['//']) and the components
    after the root.  POSIX flavour; there is no drive. *)
Record Path := MkPath { root : string; tail : list string }.

(** [s.split(sep)]. *)
Fixpoint split (sep : ascii) (s : string) : list string :=
  match s with
  | EmptyString => [EmptyString]
  | String c r =>
      if Ascii.eqb c sep then EmptyString :: split sep r
      else match split sep r with
           | h :: t => String c h :: t
           | [] => [String c EmptyString]
           end
  end.

(** [posixpath.splitroot]: the root and the rest of the text. *)
Definition splitroot (p : string) : string * string :=
  match p with
  | String "/"%char (String "/"%char (String "/"%char r)) =>
      ("/", String "/"%char (String "/"%char r))
  | String "/"%char (String "/"%char r) => ("//", r)
  | String "/"%char r => ("/", r)
  | _ => ("", p)
  end.

(** A component kept by the parser: not empty and not ['.']. *)
Definition kept (x : string) : bool :=
  negb (String.eqb x "") && negb (String.eqb x ".").

(** [PurePath._parse_path]: empty components and ['.'] are dropped. *)
Definition parse (s : string) : Path :=
  let '(r, rel) := splitroot s in
  MkPath r (List.filter kept (split "/" rel)).

(** [p / segment]: an absolute segment replaces the path, a relative one
    is appended component by component. *)
Definition truediv (p : Path) (segment : string) : Path :=
  let q := parse segment in
  if String.eqb (root q) "" then MkPath (root p) (tail p ++ tail q) else q.

(** [p.name]: the final component, [''] when there is none. *)
Definition name (p : Path) : string := List.last (tail p) "".

(** [sep.join(parts)]. *)
Fixpoint join (sep : string) (parts : list string) : string :=
  match parts with
  | [] => ""
  | [x] => x
  | x :: rest => x +:+ sep +:+ join sep rest
  end.

(** [str(p)]. *)
Definition str (p : Path) : string :=
  if String.eqb (root p) "" then
    match tail p with
    | [] => "."
    | _ => join "/" (tail p)
    end
  else root p +:+ join "/" (tail p).

(** The path of a directory entry, as [iterdir] builds it. *)
Definition child (p : Path) (entry : string) : Path :=
  MkPath (root p) (tail p ++ [entry]).

(** Comparison of two sequences of parts, as Python compares lists. *)
Fixpoint parts_leb (l1 l2 : list string) : bool :=
  match l1, l2 with
  | [], _ => true
  | _ :: _, [] => false
  | a :: r1, b :: r2 => if String.eqb a b then parts_leb r1 r2 else String.leb a b
  end.

(** The order [sorted] uses on paths: by root, then component by component. *)
Definition le (p q : Path) : Prop := parts_leb (root p :: tail p) (root q :: tail q).

Global Instance le_dec : RelDecision le.
Proof. intros p q. unfold le. apply _. Defined.

End PyPath.

Abbreviation Path := PyPath.Path.

(** ** The file system *)

(** A node of the file tree: a regular file or a directory with its
    entries, in the order the operating system lists them.  Symbolic links
    and permissions are not modelled. *)
#[warnings="-register-all"]
Inductive node :=
  | File
  | Dir (entries : list (string * node)).

(** The file tree and the working directory of the process. *)
Record filesystem := FileSystem { fs_root : node; fs_cwd : list string }.

(** The entry of a directory with the given name. *)
Fixpoint dir_lookup (entry : string) (entries : list (string * node)) : option node :=
  match entries with
  | [] => None
  | (n, c) :: rest => if String.eqb n entry then Some c else dir_lookup entry rest
  end.

(** Resolution of a sequence of components from the node [cur], whose
    ancestors are [up] (nearest first).  A component below a regular file
    or a missing entry fails; ['..'] moves to the parent, and stays at the
    root. *)
Fixpoint walk (up : list node) (cur : node) (names : list string) : option node :=
  match names with
  | [] => Some cur
  | n :: rest =>
      match cur with
      | File => None
      | Dir entries =>
          if String.eqb n ".." then
            match up with
            | [] => walk [] cur rest
            | parent :: up' => walk up' parent rest
            end
          else
            match dir_lookup n entries with
            | Some c => walk (cur :: up) c rest
            | None => None
            end
      end
  end.

(** [os.stat(p)]: the node the path leads to; relative paths start at the
    working directory. *)
Definition stat (fs : filesystem) (p : Path) : option node :=
  walk [] (fs_root fs)
       (if String.eqb (PyPath.root p) "" then fs_cwd fs ++ PyPath.tail p
        else PyPath.tail p).

(** [p.exists()]. *)
Definition path_exists (fs : filesystem) (p : Path) : bool :=
  match stat fs p with
  | Some _ => true
  | None => false
  end.

(** [p.is_dir()]. *)
Definition is_dir (fs : filesystem) (p : Path) : bool :=
  match stat fs p with
  | Some (Dir _) => true
  | _ => false
  end.

(** The exceptions [iterdir] raises. *)
Inductive os_error := FileNotFoundError | NotADirectoryError.

(** [p.iterdir()]: the paths of the entries of the directory. *)
Definition iterdir (fs : filesystem) (p : Path) : os_error + list Path :=
  match stat fs p with
  | Some (Dir entries) => inr (PyPath.child p <$> entries.*1)
  | Some File => inl NotADirectoryError
  | None => inl FileNotFoundError
  end.

(** ** The profile store *)

(** [get_profile_path] of [conftest.py]; [home] is the value of
    [Path.home()], an input of the model. *)
Definition get_profile_path (home : Path) (profile_name : string) : Path :=
  PyPath.truediv (PyPath.truediv home ".browser-use-profiles") profile_name.

(** [s.rstrip(c)] for a one-character [c]. *)
Fixpoint rstrip_char (c : ascii) (s : string) : string :=
  match s with
  | EmptyString => EmptyString
  | String a r =>
      match rstrip_char c r with
      | EmptyString => if Ascii.eqb a c then EmptyString else String a EmptyString
      | r' => String a r'
      end
  end.

(** [os.path.expanduser("~")] ([posixpath]): the value of [HOME] when the
    variable is in the environment, otherwise the home directory of the
    password database, [pw_dir] ([None] when the user has no entry: the
    text is returned unchanged); trailing separators are removed. *)
Definition expanduser_home (env : environ) (pw_dir : option string) : string :=
  let userhome :=
    match getenv env "HOME" with
    | Some h => Some h
    | None => pw_dir
    end in
  match userhome with
  | None => "~"
  | Some h =>
      let h' := rstrip_char "/" h in
      if String.eqb h' "" then "/" else h'
  end.

(** [Path.home()]; [None] stands for its [RuntimeError] ("Could not
    determine home directory."). *)
Definition Path_home (env : environ) (pw_dir : option string) : option Path :=
  let homedir := expanduser_home env pw_dir in
  if String.eqb homedir "~" then None else Some (PyPath.parse homedir).

(** A call of [get_profile_path] in a process with environment [env]:
    [Path.home()] is evaluated at the call. *)
Definition profile_path (env : environ) (pw_dir : option string) (profile_name : string)
    : option Path :=
  (λ home, get_profile_path home profile_name) <$> Path_home env pw_dir.

(** The browser the fixtures construct, by its constructor arguments. *)
Record Browser := MkBrowser { headless : bool; user_data_dir : option string }.

(** What a fixture hands to pytest: the [ModuleNotFoundError] of a failed
    import, a skip, or the value it yields. *)
Inductive fixture_result :=
  | ModuleNotFound
  | Skipped (reason : string)
  | Yielded (browser : Browser).

(** The fixture [browser_with_profile], up to its [yield]; [param] is
    [request.param], and [installed] tells whether
    [from browser_use import Browser] succeeds. *)
Definition browser_with_profile (installed : bool) (home : Path) (fs : filesystem)
    (param : string) : fixture_result :=
  if negb installed then ModuleNotFound else
  let profile_name := param in
  let profile_path := get_profile_path home profile_name in
  if negb (path_exists fs profile_path) then
    Skipped ("Profile '" +:+ profile_name +:+ "' not found. Run setup_profile.py first.")
  else
    Yielded (MkBrowser false (Some (PyPath.str profile_path))).

(** [PROFILES_DIR] of [setup_profile.py]. *)
Definition PROFILES_DIR (home : Path) : Path :=
  PyPath.truediv home ".browser-use-profiles".

(** [sorted(profiles)]. *)
Definition sorted (ps : list Path) : list Path := merge_sort PyPath.le ps.

(** [list_profiles] of [setup_profile.py]: the texts it prints, one per
    call of [print], or the exception that escapes it. *)
Definition list_profiles (home : Path) (fs : filesystem) : os_error + list string :=
  if negb (path_exists fs (PROFILES_DIR home)) then
    inr ["No profiles directory found."]
  else
    match iterdir fs (PROFILES_DIR home) with
    | inl e => inl e
    | inr ps =>
        let profiles := filter (λ p, is_dir fs p) ps in
        match profiles with
        | [] => inr ["No profiles found."]
        | _ =>
            inr (("Profiles in " +:+ PyPath.str (PROFILES_DIR home)
                    +:+ ":" +:+ String "010"%char "")
                   :: ((λ profile, "  - " +:+ PyPath.name profile) <$> sorted profiles))
        end
    end.

(** [key] is the first key in enumeration order that passes the test of
    line 51 and has prefix [prefix]. *)
Definition first_identity_key (env : environ) (prefix key : string) : Prop :=
  ∃ l1 l2, fst <$> env = l1 ++ key :: l2
    ∧ is_identity_key key = true
    ∧ PyStr.rsplit1_head "_"%char key = prefix
    ∧ ∀ k, k ∈ l1 → is_identity_key k = true → PyStr.rsplit1_head "_"%char k ≠ prefix.

(** ** Notions used to state the properties of the profile store *)

(** A name a directory can list: not empty, not ['.'] or ['..'], without
    a separator. *)
Definition valid_entry_name (n : string) : bool :=
  PyPath.kept n && negb (String.eqb n "..") && negb (PyStr.has_char "/" n).

(** A directory lists distinct, valid names. *)
Definition listing_ok (entries : list (string * node)) : Prop :=
  NoDup entries.*1 ∧ Forall (λ n, valid_entry_name n = true) entries.*1.

(** The test [is_dir] on a node. *)
Definition node_is_dir (c : node) : bool :=
  match c with
  | Dir _ => true
  | File => false
  end.

(** The names of the immediate subdirectories among the entries of a
    directory, in listing order. *)
Definition subdirs (entries : list (string * node)) : list string :=
  (filter (λ e, node_is_dir e.2) entries).*1.

(** What [list_profiles] prints for the profile names [names], given in the
    order they are printed. *)
Definition listing_output (home : Path) (names : list string) : list string :=
  match names with
  | [] => ["No profiles found."]
  | _ => ("Profiles in " +:+ PyPath.str (PROFILES_DIR home) +:+ ":" +:+ String "010"%char "")
           :: ((λ n, "  - " +:+ n) <$> names)
  end.

(** ** The fixture [browser] ([conftest.py]) *)

(** [os.getenv(key, default)]: the default is used only when the key is
    absent. *)
Definition getenv_default (env : environ) (key default : string) : string :=
  match getenv env key with
  | Some v => v
  | None => default
  end.

(** The fixture [browser], up to its [yield]: the browser it constructs. *)
Definition browser (env : environ) : Browser :=
  let headless := String.eqb (PyStr.lower (getenv_default env "HEADLESS" "true")) "true" in
  MkBrowser headless None.

(** ** The command line of [setup_profile.py] *)

(** [SERVICE_URLS], the login pages of the known services. *)
Definition SERVICE_URLS : gmap string string :=
  <["aws" := "https://console.aws.amazon.com"]>
  (<["azure" := "https://portal.azure.com"]>
  (<["bitbucket" := "https://bitbucket.org/account/signin/"]>
  (<["gmail" := "https://accounts.google.com"]>
  (<["google" := "https://accounts.google.com"]>
  (<["gitlab" := "https://gitlab.com/users/sign_in"]>
  (<["github" := "https://github.com/login"]> ∅)))))).

(** The namespace [parser.parse_args()] returns: [--service], [--url],
    [--profile-name] ([None] when the option is not given) and [--list]. *)
Record Args := MkArgs {
  arg_service : option string;
  arg_url : option string;
  arg_profile_name : option string;
  arg_list : bool
}.

(** [--service] is declared with [choices=list(SERVICE_URLS.keys())]:
    argparse rejects any other value before [main] reads the namespace. *)
Definition service_in_choices (args : Args) : Prop :=
  match arg_service args with
  | Some s => is_Some (SERVICE_URLS !! s)
  | None => True
  end.

(** What [main] goes on to do once the arguments are read. *)
Inductive main_action :=
  | ListProfiles
  | RunSetup (url profile_name : string)
  | ParserError (message : string)
  | KeyError (key : string).

(** Lines 125-144 of [main]: the branch taken, with the arguments of
    [setup_profile] when it is called.  [parser.error] ends the process;
    [if not x] holds when [x] is [None] or the empty string. *)
Definition main_dispatch (args : Args) : main_action :=
  if arg_list args then ListProfiles else
  (* url = args.url; if not url and args.service: url = SERVICE_URLS[...] *)
  let url : string + option string :=
    if negb (PyStr.truthy (arg_url args)) && PyStr.truthy (arg_service args) then
      match arg_service args with
      | Some s =>
          match SERVICE_URLS !! s with
          | Some u => inr (Some u)
          | None => inl s
          end
      | None => inr (arg_url args)
      end
    else inr (arg_url args) in
  match url with
  | inl s => KeyError s
  | inr (Some (String c u)) =>
      (* profile_name = args.profile_name; if not profile_name: ... *)
      match arg_profile_name args with
      | Some (String c' n) => RunSetup (String c u) (String c' n)
      | _ =>
          match arg_service args with
          | Some (String c' s) => RunSetup (String c u) (String c' s +:+ "-profile")
          | _ => ParserError "--profile-name is required when using --url"
          end
      end
  | inr _ => ParserError "Either --service or --url is required"
  end.

(** ** Creating directories ([os.mkdir], [Path.mkdir]) *)

(** The error codes of [os.mkdir]: [FileNotFoundError], [FileExistsError]
    and [NotADirectoryError]. *)
Inductive errno := ENOENT | EEXIST | ENOTDIR.

(** The node at a sequence of entry names below [t], none of them ['..']. *)
Fixpoint get (t : node) (names : list string) : option node :=
  match names with
  | [] => Some t
  | c :: rest =>
      match t with
      | Dir entries =>
          match dir_lookup c entries with
          | Some x => get x rest
          | None => None
          end
      | File => None
      end
  end.

(** Resolution of path components from the directory at [at_], itself
    given by its entry names from the root: the entry names of the node
    reached, or the error of the component that fails. *)
Fixpoint locate (t : node) (at_ : list string) (names : list string)
    : errno + list string :=
  match names with
  | [] => inr at_
  | n :: rest =>
      match get t at_ with
      | Some (Dir entries) =>
          if String.eqb n ".." then locate t (removelast at_) rest
          else
            match dir_lookup n entries with
            | Some _ => locate t (at_ ++ [n]) rest
            | None => inl ENOENT
            end
      | Some File => inl ENOTDIR
      | None => inl ENOENT
      end
  end.

(** The first entry of the given name, changed by [f]. *)
Fixpoint update_first (c : string) (f : node → node) (entries : list (string * node))
    : list (string * node) :=
  match entries with
  | [] => []
  | (m, x) :: rest =>
      if String.eqb m c then (m, f x) :: rest else (m, x) :: update_first c f rest
  end.

(** The tree with a new empty directory [n] in the directory at [names];
    the new entry is listed last. *)
Fixpoint add_dir (names : list string) (n : string) (t : node) : node :=
  match t with
  | File => File
  | Dir entries =>
      match names with
      | [] => Dir (entries ++ [(n, Dir [])])
      | c :: rest => Dir (update_first c (add_dir rest n) entries)
      end
  end.

(** The components [os] functions resolve for a path: those of a relative
    path follow the working directory. *)
Definition abs_names (fs : filesystem) (p : Path) : list string :=
  if String.eqb (PyPath.root p) "" then fs_cwd fs ++ PyPath.tail p
  else PyPath.tail p.

(** [os.mkdir(p)]: the file system with the new directory, or the error.
    The components before the last must lead to a directory, and the last
    must not exist there. *)
Definition os_mkdir (fs : filesystem) (p : Path) : errno + filesystem :=
  match abs_names fs p with
  | [] => inl EEXIST
  | c :: rest =>
      let names := c :: rest in
      match locate (fs_root fs) [] (removelast names) with
      | inl e => inl e
      | inr at_ =>
          match get (fs_root fs) at_ with
          | Some (Dir entries) =>
              let n := List.last names "" in
              if String.eqb n ".." then inl EEXIST
              else
                match dir_lookup n entries with
                | Some _ => inl EEXIST
                | None => inr (FileSystem (add_dir at_ n (fs_root fs)) (fs_cwd fs))
                end
          | Some File => inl ENOTDIR
          | None => inl ENOENT
          end
      end
  end.

(** [p.parent]: the path without its last component; a path without
    components is its own parent. *)
Definition parent (p : Path) : Path :=
  PyPath.MkPath (PyPath.root p) (removelast (PyPath.tail p)).

(** The file system after a call of [Path.mkdir] and the exception that
    escaped it, if any. *)
Definition mkdir_result := (filesystem * option errno)%type.

(** [p.mkdir(parents=False, exist_ok=exist_ok)]: an existing directory is
    accepted when [exist_ok] holds. *)
Definition mkdir_plain (fs : filesystem) (p : Path) (exist_ok : bool) : mkdir_result :=
  match os_mkdir fs p with
  | inr fs' => (fs', None)
  | inl ENOENT => (fs, Some ENOENT)
  | inl e => if negb exist_ok || negb (is_dir fs p) then (fs, Some e) else (fs, None)
  end.

(** [p.mkdir(parents=True, exist_ok=exist_ok)]: when a component before
    the last is missing, the parent is created first, with its own
    parents; [fuel] bounds the recursion by the number of components. *)
Fixpoint mkdir_parents (fuel : nat) (fs : filesystem) (p : Path) (exist_ok : bool)
    : mkdir_result :=
  match os_mkdir fs p with
  | inr fs' => (fs', None)
  | inl ENOENT =>
      match PyPath.tail p, fuel with
      | [], _ => (fs, Some ENOENT)
      | _, O => (fs, Some ENOENT)
      | _, S fuel' =>
          match mkdir_parents fuel' fs (parent p) true with
          | (fs1, Some e) => (fs1, Some e)
          | (fs1, None) => mkdir_plain fs1 p exist_ok
          end
      end
  | inl e => if negb exist_ok || negb (is_dir fs p) then (fs, Some e) else (fs, None)
  end.

(** [p.mkdir(parents=parents, exist_ok=exist_ok)]. *)
Definition mkdir (fs : filesystem) (p : Path) (parents exist_ok : bool) : mkdir_result :=
  if parents then mkdir_parents (length (PyPath.tail p)) fs p exist_ok
  else mkdir_plain fs p exist_ok.

(** ** [setup_profile] and [main] ([setup_profile.py]) *)

(** What the process does to the outside, in order: a call of [print], the
    construction of the browser, the calls on it, the call of [input]. *)
Inductive event :=
  | Print (text : string)
  | Launch (b : Browser)
  | NewContext
  | NewPage
  | Goto (url : string)
  | Input (prompt : string)
  | Close.

(** [c * n] for a one-character string. *)
Fixpoint repeat_char (c : ascii) (n : nat) : string :=
  match n with
  | O => ""
  | S k => String c (repeat_char c k)
  end.

(** The outcome of [setup_profile]: the file system it leaves, what it
    did, and the exception of [mkdir] when that escapes. *)
Record setup_result := SetupResult {
  sr_fs : filesystem;
  sr_events : list event;
  sr_raised : option errno
}.

(** [setup_profile(url, profile_name)].  [installed] tells whether
    [from browser_use import Browser] succeeds.  What the browser writes
    into the profile directory is outside the model. *)
Definition setup_profile (installed : bool) (home : Path) (fs : filesystem)
    (url profile_name : string) : setup_result :=
  if negb installed then
    SetupResult fs [Print "Error: browser-use not installed. Run: uv add browser-use"] None
  else
    let profile_dir := PyPath.truediv (PROFILES_DIR home) profile_name in
    match mkdir fs profile_dir true true with
    | (fs', Some e) => SetupResult fs' [] (Some e)
    | (fs', None) =>
        let nl := String "010"%char "" in
        SetupResult fs'
          [ Print (nl +:+ "Setting up profile: " +:+ profile_name);
            Print ("Profile directory: " +:+ PyPath.str profile_dir);
            Print ("Login URL: " +:+ url);
            Print (nl +:+ repeat_char "=" 60);
            Print "A browser window will open. Please:";
            Print "  1. Log in to your account";
            Print "  2. Complete any 2FA verification";
            Print "  3. Return here and press Enter when done";
            Print (repeat_char "=" 60 +:+ nl);
            Launch (MkBrowser false (Some (PyPath.str profile_dir)));
            NewContext;
            NewPage;
            Goto url;
            Input "Press Enter after completing login...";
            Close;
            Print (nl +:+ "Profile saved to: " +:+ PyPath.str profile_dir);
            Print (nl +:+ "Usage in tests:");
            Print ("  browser = Browser(user_data_dir='" +:+ PyPath.str profile_dir +:+ "')") ]
          None
    end.



(** The events of a run that concern the browser. *)
Definition browser_events (events : list event) : list event :=
  List.filter (λ e, match e with Print _ => false | _ => true end) events.

(** The directories passed on the way from [t] to the node at [names],
    nearest first, before those of [acc]: the ancestors [walk] keeps. *)
Fixpoint ancestors (t : node) (names : list string) (acc : list node) : list node :=
  match names with
  | [] => acc
  | c :: rest =>
      match t with
      | Dir entries =>
          match dir_lookup c entries with
          | Some x => ancestors x rest (t :: acc)
          | None => acc
          end
      | File => acc
      end
  end.

(** A key that the resolver can read: it ends in one of the four suffixes
    of the naming convention. *)
Definition reserved_key (key : string) : bool :=
  PyStr.endswith key "_USER" || PyStr.endswith key "_EMAIL"
  || PyStr.endswith key "_PASS" || PyStr.endswith key "_DOMAIN".

(** * Properties *)

(** ** Strings *)

Section string_facts.

Lemma app_nil_l (t : string) : "" +:+ t = t.
Proof. reflexivity. Qed.

Lemma app_cons (c : ascii) (s t : string) : String c s +:+ t = String c (s +:+ t).
Proof. reflexivity. Qed.

Lemma app_length (s t : string) :
  String.length (s +:+ t) = String.length s + String.length t.
Proof. induction s as [|c s IH]; [done|]. rewrite app_cons. simpl. by rewrite IH. Qed.

Lemma app_inv_tail (s1 s2 t : string) : s1 +:+ t = s2 +:+ t → s1 = s2.
Proof.
  revert s2. induction s1 as [|c s1 IH]; intros [|d s2] H.
  - done.
  - apply (f_equal String.length) in H. rewrite app_nil_l, app_cons in H.
    simpl in H. rewrite app_length in H. lia.
  - apply (f_equal String.length) in H. rewrite app_nil_l, app_cons in H.
    simpl in H. rewrite app_length in H. lia.
  - rewrite !app_cons in H. injection H as -> H. f_equal. by apply IH.
Qed.

Lemma substring_all (s : string) : String.substring 0 (String.length s) s = s.
Proof. induction s as [|c s IH]; [done|]. simpl. by rewrite IH. Qed.

Lemma substring_skip (p t : string) (m : nat) :
  String.substring (String.length p) m (p +:+ t) = String.substring 0 m t.
Proof. induction p as [|c p IH]; [done|]. rewrite app_cons. simpl. apply IH. Qed.

Lemma substring_split (s : string) (k : nat) :
  k ≤ String.length s →
  s = String.substring 0 k s +:+ String.substring k (String.length s - k) s.
Proof.
  revert k. induction s as [|c s IH]; intros [|k] Hk; simpl in *; try lia.
  - done.
  - rewrite app_nil_l. by rewrite substring_all.
  - rewrite app_cons. f_equal. apply IH. lia.
Qed.

Lemma endswith_spec (s suf : string) :
  PyStr.endswith s suf = true ↔ ∃ p, s = p +:+ suf.
Proof.
  unfold PyStr.endswith. rewrite andb_true_iff, Nat.leb_le, String.eqb_eq. split.
  - intros [Hle Heq]. exists (String.substring 0 (String.length s - String.length suf) s).
    pose proof (substring_split s (String.length s - String.length suf)) as H.
    replace (String.length s - (String.length s - String.length suf))
      with (String.length suf) in H by lia.
    rewrite Heq in H. apply H. lia.
  - intros [p ->]. rewrite app_length. split; [lia|].
    replace (String.length p + String.length suf - String.length suf)
      with (String.length p) by lia.
    rewrite substring_skip. apply substring_all.
Qed.

Lemma rpartition_none (sep : ascii) (t : string) :
  PyStr.has_char sep t = false → PyStr.rpartition sep t = None.
Proof.
  induction t as [|c t IH]; [done|]. simpl. intros [Hc Ht]%orb_false_iff.
  by rewrite IH, Hc.
Qed.

Lemma rpartition_last (sep : ascii) (p t : string) :
  PyStr.has_char sep t = false →
  PyStr.rpartition sep (p +:+ String sep t) = Some (p, t).
Proof.
  intros Ht. induction p as [|c p IH].
  - rewrite app_nil_l. simpl. by rewrite rpartition_none, Ascii.eqb_refl.
  - rewrite app_cons. simpl. by rewrite IH.
Qed.

Lemma rsplit1_head_suffix (sep : ascii) (p t : string) :
  PyStr.has_char sep t = false → PyStr.rsplit1_head sep (p +:+ String sep t) = p.
Proof. intros Ht. unfold PyStr.rsplit1_head, PyStr.rsplit1. by rewrite rpartition_last. Qed.

(** The prefix of an identity key is the key without its last segment. *)
Lemma identity_key_inv (key : string) :
  is_identity_key key = true →
  key = PyStr.rsplit1_head "_"%char key +:+ "_USER"
  ∨ key = PyStr.rsplit1_head "_"%char key +:+ "_EMAIL".
Proof.
  unfold is_identity_key. intros [H|H]%orb_true_iff;
    apply endswith_spec in H as [p ->]; [left|right];
    by rewrite rsplit1_head_suffix.
Qed.

Lemma identity_key_user (p : string) : is_identity_key (p +:+ "_USER") = true.
Proof. unfold is_identity_key. apply orb_true_iff. left. apply endswith_spec. eauto. Qed.

Lemma identity_key_email (p : string) : is_identity_key (p +:+ "_EMAIL") = true.
Proof. unfold is_identity_key. apply orb_true_iff. right. apply endswith_spec. eauto. Qed.

Lemma prefix_of_user (p : string) : PyStr.rsplit1_head "_"%char (p +:+ "_USER") = p.
Proof. by apply rsplit1_head_suffix. Qed.

Lemma prefix_of_email (p : string) : PyStr.rsplit1_head "_"%char (p +:+ "_EMAIL") = p.
Proof. by apply rsplit1_head_suffix. Qed.

(** The two placeholder names of a prefix differ. *)
Lemma placeholder_names_differ (q : string) : q +:+ "_user" ≠ q +:+ "_pass".
Proof. induction q as [|c q IH]; [done|]. rewrite !app_cons. congruence. Qed.

Lemma truthy_Some (o : option string) :
  PyStr.truthy o = true ↔ ∃ s, o = Some s ∧ s ≠ "".
Proof.
  destruct o as [[|c s]|]; simpl; split; try done.
  - intros (s & [= <-] & H). done.
  - intros _. eauto.
  - intros (s & [=] & _).
Qed.

End string_facts.

(** ** The loop and its visits *)

Section loop_facts.

Context (env : environ).

Implicit Types (st : loop_state) (seen : gset string) (keys : list string).
Implicit Types (c : gmap string (gmap string string)) (v : visit) (vs : list visit).

(** The loop is the replay of its visits. *)
Lemma loop_credentials st keys :
  credentials (foldl (loop_body env) st keys)
  = foldl apply_write (credentials st) (visits env (processed_prefixes st) keys).
Proof.
  revert st. induction keys as [|key keys IH]; intros st; [done|].
  simpl. unfold loop_body at 2.
  destruct (is_identity_key key); simpl; [|apply IH].
  case_bool_decide; [apply IH|].
  rewrite IH. unfold apply_write at 2. simpl.
  by destruct (resolve env key _) as [[d e]|].
Qed.

Lemma visits_fresh seen keys v :
  v ∈ visits env seen keys → v_prefix v ∉ seen.
Proof.
  revert seen. induction keys as [|key keys IH]; intros seen; simpl.
  - by intros ?%elem_of_nil.
  - destruct (is_identity_key key); simpl; [|apply IH].
    case_bool_decide as Hin; [apply IH|].
    intros [->|Hv%IH]%elem_of_cons; [done|]. set_solver.
Qed.

Lemma visits_seen seen keys v :
  v ∈ visits env seen keys →
  v_key v ∈ keys ∧ is_identity_key (v_key v) = true
  ∧ v_prefix v = PyStr.rsplit1_head "_"%char (v_key v)
  ∧ v_write v = resolve env (v_key v) (v_prefix v).
Proof.
  revert seen. induction keys as [|key keys IH]; intros seen; simpl.
  - by intros ?%elem_of_nil.
  - destruct (is_identity_key key) eqn:Hid; simpl.
    + case_bool_decide as Hin.
      * intros (? & ? & ? & ?)%IH. repeat split; [by right|done..].
      * intros [->|(? & ? & ? & ?)%IH]%elem_of_cons; simpl.
        -- repeat split; [by left|done].
        -- repeat split; [by right|done..].
    + intros (? & ? & ? & ?)%IH. repeat split; [by right|done..].
Qed.

(** No prefix is visited twice. *)
Lemma visits_NoDup seen keys : NoDup (v_prefix <$> visits env seen keys).
Proof.
  revert seen. induction keys as [|key keys IH]; intros seen; simpl.
  - constructor.
  - destruct (is_identity_key key); simpl; [|apply IH].
    case_bool_decide as Hin; [apply IH|].
    constructor; [|apply IH].
    intros (v & Hp & Hv%visits_fresh)%list_elem_of_fmap. simpl in Hp. set_solver.
Qed.

(** The key of a visit is the first identity key of its prefix. *)
Lemma visits_first seen keys v :
  v ∈ visits env seen keys →
  ∃ l1 l2, keys = l1 ++ v_key v :: l2
    ∧ ∀ k, k ∈ l1 → is_identity_key k = true →
           PyStr.rsplit1_head "_"%char k ≠ v_prefix v.
Proof.
  revert seen. induction keys as [|key keys IH]; intros seen; simpl.
  - by intros ?%elem_of_nil.
  - destruct (is_identity_key key) eqn:Hid; simpl.
    + case_bool_decide as Hin.
      * intros Hv. pose proof (visits_fresh _ _ _ Hv) as Hfresh.
        destruct (IH _ Hv) as (l1 & l2 & -> & Hl1).
        exists (key :: l1), l2. split; [done|].
        intros k [->|Hk]%elem_of_cons Hk'; [congruence|by apply Hl1].
      * intros [->|Hv]%elem_of_cons; simpl.
        -- exists [], keys. split; [done|]. by intros k ?%elem_of_nil.
        -- pose proof (visits_fresh _ _ _ Hv) as Hfresh.
           destruct (IH _ Hv) as (l1 & l2 & -> & Hl1).
           exists (key :: l1), l2. split; [done|].
           intros k [->|Hk]%elem_of_cons Hk'; [set_solver|by apply Hl1].
    + intros Hv. destruct (IH _ Hv) as (l1 & l2 & -> & Hl1).
      exists (key :: l1), l2. split; [done|].
      intros k [->|Hk]%elem_of_cons Hk'; [congruence|by apply Hl1].
Qed.

(** The first identity key of a new prefix is visited. *)
Lemma visits_intro seen l1 key l2 :
  is_identity_key key = true →
  PyStr.rsplit1_head "_"%char key ∉ seen →
  (∀ k, k ∈ l1 → is_identity_key k = true →
        PyStr.rsplit1_head "_"%char k ≠ PyStr.rsplit1_head "_"%char key) →
  Visit key (PyStr.rsplit1_head "_"%char key)
        (resolve env key (PyStr.rsplit1_head "_"%char key))
    ∈ visits env seen (l1 ++ key :: l2).
Proof.
  intros Hid. revert seen. induction l1 as [|k l1 IH]; intros seen Hseen Hl1; simpl.
  - rewrite Hid. simpl. rewrite bool_decide_eq_false_2 by done. by left.
  - destruct (is_identity_key k) eqn:Hk; simpl.
    + case_bool_decide.
      * apply IH; [done|]. intros k' Hk'. apply Hl1. by right.
      * right. apply IH.
        -- assert (PyStr.rsplit1_head "_"%char k ≠ PyStr.rsplit1_head "_"%char key)
             by (apply Hl1; [by left|done]).
           intros [?|?%elem_of_singleton]%elem_of_union; [done|congruence].
        -- intros k' Hk'. apply Hl1. by right.
    + apply IH; [done|]. intros k' Hk'. apply Hl1. by right.
Qed.

(** Every identity key has its prefix visited, or seen before. *)
Lemma visits_complete seen keys key :
  key ∈ keys → is_identity_key key = true →
  PyStr.rsplit1_head "_"%char key ∈ seen
  ∨ PyStr.rsplit1_head "_"%char key ∈ v_prefix <$> visits env seen keys.
Proof.
  revert seen. induction keys as [|k keys IH]; intros seen; [by intros ?%elem_of_nil|].
  intros [->|Hin]%elem_of_cons Hid; simpl.
  - rewrite Hid. simpl. case_bool_decide; [by left|]. right. simpl. by left.
  - destruct (is_identity_key k); simpl; [|by apply IH].
    case_bool_decide; [by apply IH|].
    destruct (IH (seen ∪ {[PyStr.rsplit1_head "_"%char k]}) Hin Hid) as [Hs|Hv].
    + apply elem_of_union in Hs as [Hs|Hs%elem_of_singleton]; [by left|].
      right. simpl. rewrite Hs. by left.
    + right. simpl. by right.
Qed.

(** A domain no visit assigns to keeps its entry. *)
Lemma replay_untouched c vs (D : string) :
  (∀ v, v ∈ vs → v_domain v ≠ Some D) →
  foldl apply_write c vs !! D = c !! D.
Proof.
  revert c. induction vs as [|v vs IH]; intros c Hvs; [done|]. simpl.
  rewrite IH by (intros v' Hv'; apply Hvs; by right).
  assert (v_domain v ≠ Some D) as Hv by (apply Hvs; by left).
  unfold apply_write, v_domain in *. destruct (v_write v) as [[d e]|]; [|done].
  simpl in Hv. apply lookup_insert_ne. congruence.
Qed.

(** The last visit that assigns to a domain decides its entry. *)
Lemma replay_last c l1 v l2 (D : string) (e : gmap string string) :
  v_write v = Some (D, e) →
  (∀ v', v' ∈ l2 → v_domain v' ≠ Some D) →
  foldl apply_write c (l1 ++ v :: l2) !! D = Some e.
Proof.
  intros Hv Hl2. rewrite foldl_app. simpl.
  rewrite replay_untouched by done.
  unfold apply_write. rewrite Hv. apply lookup_insert_eq.
Qed.

(** A list of visits either never assigns to a domain or has a last
    visit that does. *)
Lemma last_write_dec vs (D : string) :
  (∀ v, v ∈ vs → v_domain v ≠ Some D)
  ∨ ∃ l1 v l2 e, vs = l1 ++ v :: l2 ∧ v_write v = Some (D, e)
      ∧ ∀ v', v' ∈ l2 → v_domain v' ≠ Some D.
Proof.
  induction vs as [|v vs IH]; [|destruct IH as [IH|(l1 & w & l2 & e & -> & Hw & Hl2)]].
  - left. by intros v ?%elem_of_nil.
  - destruct (v_write v) as [[d e]|] eqn:Hv.
    + destruct (decide (d = D)) as [->|Hne].
      * right. exists [], v, vs, e. done.
      * left. intros v' [->|Hv']%elem_of_cons; [|by apply IH].
        unfold v_domain. rewrite Hv. simpl. congruence.
    + left. intros v' [->|Hv']%elem_of_cons; [|by apply IH].
      unfold v_domain. by rewrite Hv.
  - right. exists (v :: l1), w, l2, e. done.
Qed.

Lemma build_replay : build_sensitive_data env = foldl apply_write ∅ (trace env).
Proof. unfold build_sensitive_data. by rewrite loop_credentials. Qed.

End loop_facts.

(** ** The environment *)

Section environ_facts.

Implicit Types (env : environ) (key : string).

Lemma getenv_Some_key env key v : getenv env key = Some v → key ∈ fst <$> env.
Proof.
  induction env as [|[k w] env IH]; simpl; [done|].
  destruct (String.eqb k key) eqn:Hk.
  - apply String.eqb_eq in Hk as ->. intros _. by left.
  - intros ?%IH. by right.
Qed.

Lemma getenv_None env key : getenv env key = None ↔ key ∉ fst <$> env.
Proof.
  induction env as [|[k w] env IH]; simpl.
  - split; [intros _ ?%elem_of_nil|]; done.
  - destruct (String.eqb k key) eqn:Hk.
    + apply String.eqb_eq in Hk as ->. split; [done|]. intros []. by left.
    + apply String.eqb_neq in Hk. rewrite IH, not_elem_of_cons. intuition congruence.
Qed.

Lemma getenv_key env key : key ∈ fst <$> env → is_Some (getenv env key).
Proof.
  intros Hin. destruct (getenv env key) eqn:H; [done|].
  by apply getenv_None in H.
Qed.

(** Keys that are not identity keys are skipped. *)
Lemma visits_skip env seen l1 l2 :
  (∀ k, k ∈ l1 → is_identity_key k = false) →
  visits env seen (l1 ++ l2) = visits env seen l2.
Proof.
  induction l1 as [|k l1 IH]; intros Hl1; [done|]. simpl.
  rewrite (Hl1 k) by (by left). simpl. apply IH. intros k' ?. apply Hl1. by right.
Qed.

(** Keys whose prefix was seen are skipped. *)
Lemma visits_all_seen env seen keys :
  (∀ k, k ∈ keys → is_identity_key k = true → PyStr.rsplit1_head "_"%char k ∈ seen) →
  visits env seen keys = [].
Proof.
  induction keys as [|k keys IH]; intros Hk; [done|]. simpl.
  destruct (is_identity_key k) eqn:Hid; simpl.
  - rewrite bool_decide_eq_true_2 by (apply Hk; [by left|done]).
    apply IH. intros k' ?. apply Hk. by right.
  - apply IH. intros k' ?. apply Hk. by right.
Qed.

(** An environment with one identity key has one visit. *)
Lemma trace_single env key :
  key ∈ fst <$> env → is_identity_key key = true →
  (∀ k, k ∈ fst <$> env → is_identity_key k = true → k = key) →
  trace env = [Visit key (PyStr.rsplit1_head "_"%char key)
                 (resolve env key (PyStr.rsplit1_head "_"%char key))].
Proof.
  intros Hin Hid Honly. unfold trace.
  destruct (list_elem_of_split_l _ _ Hin) as (l1 & l2 & Heq & Hl1).
  rewrite Heq in Honly |- *. rewrite visits_skip.
  - simpl. rewrite Hid. simpl. rewrite bool_decide_eq_false_2 by apply not_elem_of_empty.
    f_equal. apply visits_all_seen. intros k Hk Hk'.
    rewrite (Honly k) by (rewrite ?elem_of_app, ?elem_of_cons; auto).
    apply elem_of_union. right. by apply elem_of_singleton.
  - intros k Hk. destruct (is_identity_key k) eqn:Hk'; [|done].
    destruct Hl1. rewrite <- (Honly k); [done| |done].
    rewrite elem_of_app. by left.
Qed.

(** A complete configuration resolves to its placeholders. *)
Lemma resolve_Some env key prefix u p d :
  getenv env key = Some u → u ≠ "" →
  getenv env (prefix +:+ "_PASS") = Some p → p ≠ "" →
  PyStr.or_else (getenv env (prefix +:+ "_DOMAIN")) (DOMAIN_MAP !! prefix) = Some d →
  d ≠ "" →
  resolve env key prefix = Some (d, placeholders prefix u p).
Proof.
  intros Hu Hu' Hp Hp' Hd Hd'. unfold resolve. rewrite Hu, Hp, Hd.
  destruct u, p, d; done.
Qed.

(** What a successful iteration has read. *)
Lemma resolve_inv env key prefix d e :
  resolve env key prefix = Some (d, e) →
  ∃ u p, getenv env key = Some u ∧ u ≠ ""
    ∧ getenv env (prefix +:+ "_PASS") = Some p ∧ p ≠ ""
    ∧ PyStr.or_else (getenv env (prefix +:+ "_DOMAIN")) (DOMAIN_MAP !! prefix) = Some d
    ∧ d ≠ "" ∧ e = placeholders prefix u p.
Proof.
  unfold resolve.
  destruct (getenv env key) as [[|c u]|]; simpl; try done.
  destruct (getenv env (prefix +:+ "_PASS")) as [[|c' p]|]; simpl; try done.
  destruct (PyStr.or_else _ _) as [[|c'' d']|]; simpl; try done.
  intros [= <- <-]. eexists _, _. repeat split; done.
Qed.

(** Every domain of the static table is a non-empty pattern. *)
Lemma DOMAIN_MAP_nonempty prefix d : DOMAIN_MAP !! prefix = Some d → d ≠ "".
Proof.
  unfold DOMAIN_MAP. intros H.
  repeat (apply lookup_insert_Some in H as [[_ <-]|[_ H]]; [done|]).
  by rewrite lookup_empty in H.
Qed.

(** The placeholder sub-map has exactly the two placeholder names. *)
Lemma placeholders_eq prefix u p :
  placeholders prefix u p
  = {[ PyStr.lower prefix +:+ "_user" := u; PyStr.lower prefix +:+ "_pass" := p ]}.
Proof.
  unfold placeholders. rewrite insert_empty.
  apply insert_insert_ne. intros H. symmetry in H. by apply placeholder_names_differ in H.
Qed.

End environ_facts.

(** ** Credential resolver: the claims *)

(** A run on a small environment. *)
Example build_github :
  build_sensitive_data [("HOME", "/root"); ("GITHUB_USER", "me"); ("GITHUB_PASS", "pw")]
  = {[ "https://*.github.com" := {[ "github_user" := "me"; "github_pass" := "pw" ]} ]}.
Proof. vm_compute. reflexivity. Qed.

(** C1. An environment with [FOO_USER=u] and [FOO_PASS=p], both non-empty,
    without [FOO_DOMAIN], with [FOO] in the static table at domain [D], and
    with no other key ending in [_USER] or [_EMAIL], resolves to exactly
    [{D: {foo_user: u, foo_pass: p}}]. *)
Theorem single_known_prefix (env : environ) (foo u p D : string) :
  getenv env (foo +:+ "_USER") = Some u → u ≠ "" →
  getenv env (foo +:+ "_PASS") = Some p → p ≠ "" →
  foo +:+ "_DOMAIN" ∉ fst <$> env →
  DOMAIN_MAP !! foo = Some D →
  (∀ k, k ∈ fst <$> env → is_identity_key k = true → k = foo +:+ "_USER") →
  build_sensitive_data env
  = {[ D := {[ PyStr.lower foo +:+ "_user" := u; PyStr.lower foo +:+ "_pass" := p ]} ]}.
Proof.
  intros Hu Hu' Hp Hp' Hnodom HD Honly.
  rewrite build_replay.
  rewrite (trace_single env (foo +:+ "_USER"));
    [|by eapply getenv_Some_key|apply identity_key_user|done].
  rewrite prefix_of_user. simpl. unfold apply_write. simpl.
  rewrite (resolve_Some env _ foo u p D); try done.
  - by rewrite placeholders_eq, insert_empty.
  - apply getenv_None in Hnodom. by rewrite Hnodom.
  - by eapply DOMAIN_MAP_nonempty.
Qed.

Lemma single_known_prefix_witness :
  build_sensitive_data
    [("PATH", "/usr/bin"); ("GITLAB_PASS", "s3cret"); ("GITLAB_USER", "alice")]
  = {[ "https://*.gitlab.com" := {[ "gitlab_user" := "alice"; "gitlab_pass" := "s3cret" ]} ]}.
Proof.
  apply (single_known_prefix
           [("PATH", "/usr/bin"); ("GITLAB_PASS", "s3cret"); ("GITLAB_USER", "alice")]
           "GITLAB" "alice" "s3cret" "https://*.gitlab.com");
    try reflexivity; try discriminate.
  - intros H. repeat (apply elem_of_cons in H as [H|H]; [discriminate H|]).
    by apply elem_of_nil in H.
  - intros k H Hid.
    repeat (apply elem_of_cons in H as [->|H]; [done || discriminate Hid|]).
    by apply elem_of_nil in H.
Defined.

(** C2. Every sub-map of the result holds exactly the two placeholders of
    one prefix, the one written by a visit of the loop; the visits follow
    the enumeration order of the environment, and when two visits assign to
    the same domain the later one decides the entry of that domain. *)
Theorem submap_shape_last_write_wins (env : environ) :
  (∀ D sub, build_sensitive_data env !! D = Some sub →
     ∃ v u p, v ∈ trace env ∧ v_write v = Some (D, sub)
       ∧ sub = {[ PyStr.lower (v_prefix v) +:+ "_user" := u;
                  PyStr.lower (v_prefix v) +:+ "_pass" := p ]}
       ∧ PyStr.lower (v_prefix v) +:+ "_user" ≠ PyStr.lower (v_prefix v) +:+ "_pass"
       ∧ dom sub = {[ PyStr.lower (v_prefix v) +:+ "_user";
                      PyStr.lower (v_prefix v) +:+ "_pass" ]})
  ∧ (v_key <$> trace env) `sublist_of` (fst <$> env)
  ∧ (∀ l1 v1 l2 v2 l3 D e1 e2,
       trace env = l1 ++ v1 :: l2 ++ v2 :: l3 →
       v_write v1 = Some (D, e1) → v_write v2 = Some (D, e2) →
       (∀ v, v ∈ l3 → v_domain v ≠ Some D) →
       v_prefix v1 ≠ v_prefix v2 ∧ build_sensitive_data env !! D = Some e2).
Proof.
  split; [|split].
  - intros D sub Hsub. rewrite build_replay in Hsub.
    destruct (last_write_dec (trace env) D) as [Hno|(l1 & v & l2 & e & Heq & Hv & Hl2)].
    + by rewrite replay_untouched, lookup_empty in Hsub.
    + rewrite Heq, (replay_last _ _ _ _ _ e Hv Hl2) in Hsub. injection Hsub as ->.
      assert (v ∈ trace env) as Hin
        by (rewrite Heq, elem_of_app, elem_of_cons; auto).
      destruct (visits_seen _ _ _ _ Hin) as (_ & _ & _ & Hres).
      rewrite Hv in Hres. symmetry in Hres.
      apply resolve_inv in Hres as (u & p & _ & _ & _ & _ & _ & _ & ->).
      exists v, u, p. split; [done|]. split; [done|].
      split; [apply placeholders_eq|]. split; [apply placeholder_names_differ|].
      by rewrite placeholders_eq, dom_insert_L, dom_singleton_L.
  - unfold trace. generalize (∅ : gset string).
    induction (fst <$> env) as [|k ks IH]; intros seen; simpl; [done|].
    destruct (is_identity_key k); simpl.
    + case_bool_decide; [by apply sublist_cons|]. by apply sublist_skip.
    + by apply sublist_cons.
  - intros l1 v1 l2 v2 l3 D e1 e2 Heq H1 H2 Hl3. split.
    + pose proof (visits_NoDup env ∅ (fst <$> env)) as Hnd.
      fold (trace env) in Hnd. rewrite Heq in Hnd.
      rewrite fmap_app, fmap_cons, fmap_app, fmap_cons in Hnd.
      apply NoDup_app in Hnd as (_ & _ & Hnd).
      apply NoDup_cons in Hnd as [Hnd _].
      intros Hp. apply Hnd. rewrite Hp, elem_of_app, elem_of_cons. auto.
    + rewrite build_replay, Heq.
      replace (l1 ++ v1 :: l2 ++ v2 :: l3) with ((l1 ++ v1 :: l2) ++ v2 :: l3)
        by (by rewrite <- app_assoc).
      by apply replay_last.
Qed.

Lemma submap_shape_last_write_wins_witness :
  build_sensitive_data
    [("GMAIL_EMAIL", "a@x.org"); ("GMAIL_PASS", "one");
     ("GOOGLE_USER", "bob"); ("GOOGLE_PASS", "two")] !! "https://*.google.com"
  = Some {[ "google_user" := "bob"; "google_pass" := "two" ]}.
Proof.
  pose (env := [("GMAIL_EMAIL", "a@x.org"); ("GMAIL_PASS", "one");
                ("GOOGLE_USER", "bob"); ("GOOGLE_PASS", "two")] : environ).
  destruct (submap_shape_last_write_wins env) as (_ & _ & Hlast).
  refine (proj2 (Hlast []
    (Visit "GMAIL_EMAIL" "GMAIL"
       (Some ("https://*.google.com", {[ "gmail_user" := "a@x.org"; "gmail_pass" := "one" ]})))
    []
    (Visit "GOOGLE_USER" "GOOGLE"
       (Some ("https://*.google.com", {[ "google_user" := "bob"; "google_pass" := "two" ]})))
    [] "https://*.google.com" _ _ _ _ _ _)).
  - vm_compute. reflexivity.
  - reflexivity.
  - reflexivity.
  - intros v Hv. by apply elem_of_nil in Hv.
Defined.

(** ** The visit of a prefix *)

(** Decides [first_identity_key] on a concrete environment, given the keys
    before and after the key. *)
Ltac first_key l1 l2 :=
  exists l1, l2;
  split; [reflexivity|]; split; [reflexivity|]; split; [reflexivity|];
  let k := fresh "k" in let Hk := fresh "Hk" in let Hid := fresh "Hid" in
  intros k Hk Hid;
  repeat (apply elem_of_cons in Hk as [->|Hk];
          [first [discriminate Hid
                 |let E := fresh in intros E; vm_compute in E; discriminate E]|]);
  by apply elem_of_nil in Hk.

Section prefix_facts.

Context (env : environ).

Lemma NoDup_fmap_eq {A B} (f : A → B) (l : list A) (x y : A) :
  NoDup (f <$> l) → x ∈ l → y ∈ l → f x = f y → x = y.
Proof.
  induction l as [|a l IH]; [by intros _ ?%elem_of_nil|].
  rewrite fmap_cons, NoDup_cons. intros [Ha Hnd].
  intros [->|Hx]%elem_of_cons [->|Hy]%elem_of_cons Hf; [done| | |by apply IH].
  - destruct Ha. rewrite Hf. apply list_elem_of_fmap. eauto.
  - destruct Ha. rewrite <- Hf. apply list_elem_of_fmap. eauto.
Qed.

(** A prefix is visited once, at its first identity key. *)
Lemma prefix_visit (prefix key : string) :
  first_identity_key env prefix key →
  Visit key prefix (resolve env key prefix) ∈ trace env
  ∧ ∀ v, v ∈ trace env → v_prefix v = prefix →
         v = Visit key prefix (resolve env key prefix).
Proof.
  intros (l1 & l2 & Heq & Hid & <- & Hl1).
  assert (Visit key (PyStr.rsplit1_head "_"%char key)
            (resolve env key (PyStr.rsplit1_head "_"%char key)) ∈ trace env) as Hin.
  { unfold trace. rewrite Heq. apply visits_intro; [done|apply not_elem_of_empty|done]. }
  split; [done|]. intros v Hv Hp.
  by apply (NoDup_fmap_eq v_prefix (trace env)); [apply visits_NoDup|..].
Qed.

(** The key of every visit is the first identity key of its prefix. *)
Lemma visit_first (v : visit) :
  v ∈ trace env → first_identity_key env (v_prefix v) (v_key v).
Proof.
  intros Hv. destruct (visits_first _ _ _ _ Hv) as (l1 & l2 & Heq & Hl1).
  destruct (visits_seen _ _ _ _ Hv) as (_ & Hid & Hp & _).
  exists l1, l2. by rewrite <- Hp.
Qed.

(** When the iteration of a prefix performs no assignment. *)
Lemma resolve_None (key prefix : string) :
  resolve env key prefix = None ↔
    PyStr.truthy (getenv env key) = false
    ∨ PyStr.truthy (getenv env (prefix +:+ "_PASS")) = false
    ∨ PyStr.truthy (PyStr.or_else (getenv env (prefix +:+ "_DOMAIN"))
                                  (DOMAIN_MAP !! prefix)) = false.
Proof.
  unfold resolve.
  destruct (getenv env key) as [[|c u]|]; simpl; [tauto| |tauto].
  destruct (getenv env (prefix +:+ "_PASS")) as [[|c' p]|]; simpl; [tauto| |tauto].
  destruct (PyStr.or_else _ _) as [[|c'' d']|]; simpl; [tauto| |tauto].
  split; [done|]. by intros [|[|]].
Qed.

(** The entry of a domain nobody else assigns to. *)
Lemma sole_writer (v : visit) (d : string) (e : gmap string string) :
  v ∈ trace env → v_write v = Some (d, e) →
  (∀ v', v' ∈ trace env → v_prefix v' ≠ v_prefix v → v_domain v' ≠ Some d) →
  build_sensitive_data env !! d = Some e.
Proof.
  intros Hv Hw Hothers. rewrite build_replay.
  destruct (list_elem_of_split _ _ Hv) as (l1 & l2 & Heq).
  rewrite Heq. apply replay_last; [done|].
  intros v' Hv'. apply Hothers.
  - rewrite Heq, elem_of_app, elem_of_cons. auto.
  - pose proof (visits_NoDup env ∅ (fst <$> env)) as Hnd. fold (trace env) in Hnd.
    rewrite Heq, fmap_app, fmap_cons in Hnd.
    apply NoDup_app in Hnd as (_ & _ & [Hnd _]%NoDup_cons).
    intros Hp. apply Hnd. rewrite <- Hp. apply list_elem_of_fmap. eauto.
Qed.

(** Without assignments the result is empty. *)
Lemma no_writes_empty :
  (∀ v, v ∈ trace env → v_write v = None) → build_sensitive_data env = ∅.
Proof.
  intros Hno. rewrite build_replay.
  induction (trace env) as [|v vs IH]; [done|]. simpl.
  unfold apply_write at 2. rewrite (Hno v) by (by left).
  apply IH. intros v' ?. apply Hno. by right.
Qed.

(** Every entry of the result was assigned by a visit. *)
Lemma entry_origin (D : string) (sub : gmap string string) :
  build_sensitive_data env !! D = Some sub →
  ∃ v, v ∈ trace env ∧ v_write v = Some (D, sub).
Proof.
  rewrite build_replay. intros Hsub.
  destruct (last_write_dec (trace env) D) as [Hno|(l1 & v & l2 & e & Heq & Hv & Hl2)].
  - by rewrite replay_untouched, lookup_empty in Hsub.
  - rewrite Heq, (replay_last _ _ _ _ _ e Hv Hl2) in Hsub. injection Hsub as ->.
    exists v. split; [|done]. rewrite Heq, elem_of_app, elem_of_cons. auto.
Qed.

(** A prefix that performs no assignment is the origin of no entry. *)
Lemma entry_not_from (prefix : string) (D : string) (sub : gmap string string) :
  (∀ v, v ∈ trace env → v_prefix v = prefix → v_write v = None) →
  build_sensitive_data env !! D = Some sub →
  ∃ v, v ∈ trace env ∧ v_write v = Some (D, sub) ∧ v_prefix v ≠ prefix.
Proof.
  intros Hno (v & Hv & Hw)%entry_origin. exists v. split; [done|]. split; [done|].
  intros Hp. by rewrite (Hno v Hv Hp) in Hw.
Qed.

End prefix_facts.

(** ** Environments that the loop cannot tell apart *)

Section resolver_ext.

Implicit Types (env : environ) (st : loop_state) (key k : string).

Lemma loop_body_processed_mono env st key :
  processed_prefixes st ⊆ processed_prefixes (loop_body env st key).
Proof.
  unfold loop_body. destruct (is_identity_key key); simpl; [|done].
  case_bool_decide; [done|].
  destruct (resolve env key _) as [[d e]|]; simpl; apply union_subseteq_l.
Qed.

Lemma foldl_processed_mono env (keys : list string) st :
  processed_prefixes st ⊆ processed_prefixes (foldl (loop_body env) st keys).
Proof.
  revert st. induction keys as [|key keys IH]; intros st; [done|]. simpl.
  etrans; [apply (loop_body_processed_mono env st key)|apply IH].
Qed.

(** After the loop has passed an identity key, its prefix is recorded. *)
Lemma processed_after env (keys : list string) st key :
  key ∈ keys → is_identity_key key = true →
  PyStr.rsplit1_head "_"%char key
    ∈ processed_prefixes (foldl (loop_body env) st keys).
Proof.
  revert st. induction keys as [|k keys IH]; intros st; [by intros ?%elem_of_nil|].
  intros [<-|Hin]%elem_of_cons Hid; simpl; [|by apply IH].
  apply (foldl_processed_mono env keys). unfold loop_body. rewrite Hid. simpl.
  case_bool_decide; [done|].
  destruct (resolve env key _) as [[d e]|]; simpl;
    apply elem_of_union; right; by apply elem_of_singleton.
Qed.

(** Two environments that resolve alike every identity key whose prefix is
    still new run the loop alike. *)
Lemma foldl_loop_ext env env' (keys : list string) st :
  (∀ key, key ∈ keys → is_identity_key key = true →
     PyStr.rsplit1_head "_"%char key ∉ processed_prefixes st →
     resolve env key (PyStr.rsplit1_head "_"%char key)
     = resolve env' key (PyStr.rsplit1_head "_"%char key)) →
  foldl (loop_body env) st keys = foldl (loop_body env') st keys.
Proof.
  revert st. induction keys as [|key keys IH]; intros st Hres; [done|]. simpl.
  assert (loop_body env st key = loop_body env' st key) as Hstep.
  { unfold loop_body. destruct (is_identity_key key) eqn:Hid; simpl; [|done].
    case_bool_decide as Hseen; [done|].
    by rewrite (Hres key) by (by try left). }
  rewrite Hstep. apply IH. intros key' Hin Hid Hnew. apply Hres; [by right|done|].
  intros Hold. apply Hnew. rewrite <- Hstep.
  by apply (loop_body_processed_mono env st key).
Qed.

Lemma getenv_app_l (l1 l2 : environ) key :
  key ∈ l1.*1 → getenv (l1 ++ l2) key = getenv l1 key.
Proof.
  induction l1 as [|[k v] l1 IH]; simpl; [by intros ?%elem_of_nil|].
  destruct (String.eqb_spec k key) as [->|Hne]; [done|].
  intros [?|Hin]%elem_of_cons; [done|]. by apply IH.
Qed.

Lemma getenv_app_r (l1 l2 : environ) key :
  key ∉ l1.*1 → getenv (l1 ++ l2) key = getenv l2 key.
Proof.
  induction l1 as [|[k v] l1 IH]; simpl; [done|].
  rewrite not_elem_of_cons. intros [Hne Hin].
  apply not_eq_sym in Hne. apply String.eqb_neq in Hne. rewrite Hne. by apply IH.
Qed.

Lemma getenv_remove_other (l1 l2 : environ) k v key :
  key ≠ k → getenv (l1 ++ (k, v) :: l2) key = getenv (l1 ++ l2) key.
Proof.
  intros Hne. induction l1 as [|[k' v'] l1 IH]; simpl.
  - apply not_eq_sym in Hne. apply String.eqb_neq in Hne. by rewrite Hne.
  - by rewrite IH.
Qed.

(** The last segment of a key tells the four kinds of keys apart. *)
Lemma last_segment (p q s t : string) :
  PyStr.has_char "_" s = false → PyStr.has_char "_" t = false →
  p +:+ String "_"%char s = q +:+ String "_"%char t → p = q ∧ s = t.
Proof.
  intros Hs Ht Heq. apply (f_equal (PyStr.rpartition "_")) in Heq.
  rewrite !rpartition_last in Heq by done. by injection Heq.
Qed.

Lemma pass_key_not_identity (P : string) : is_identity_key (P +:+ "_PASS") = false.
Proof.
  destruct (is_identity_key (P +:+ "_PASS")) eqn:Hid; [|done].
  destruct (identity_key_inv _ Hid) as [H|H];
    apply last_segment in H as [_ H]; done.
Qed.

Lemma domain_key_not_identity (P : string) : is_identity_key (P +:+ "_DOMAIN") = false.
Proof.
  destruct (is_identity_key (P +:+ "_DOMAIN")) eqn:Hid; [|done].
  destruct (identity_key_inv _ Hid) as [H|H];
    apply last_segment in H as [_ H]; done.
Qed.

Lemma identity_key_ne_pass key (P : string) :
  is_identity_key key = true → P +:+ "_PASS" ≠ key.
Proof. intros Hid <-. by rewrite pass_key_not_identity in Hid. Qed.

Lemma identity_key_ne_domain key (P : string) :
  is_identity_key key = true → P +:+ "_DOMAIN" ≠ key.
Proof. intros Hid <-. by rewrite domain_key_not_identity in Hid. Qed.

(** An identity key that follows another identity key of the same prefix
    is not read: the result is the same without it. *)
Lemma later_identity_key_ignored (l1 l2 : environ) k v k0 :
  k0 ∈ l1.*1 → is_identity_key k0 = true → is_identity_key k = true →
  PyStr.rsplit1_head "_"%char k0 = PyStr.rsplit1_head "_"%char k →
  build_sensitive_data (l1 ++ (k, v) :: l2) = build_sensitive_data (l1 ++ l2).
Proof.
  intros Hk0 Hid0 Hid Hprefix. unfold build_sensitive_data. f_equal.
  rewrite !fmap_app, fmap_cons, !foldl_app. simpl.
  set (env := l1 ++ (k, v) :: l2). set (env' := l1 ++ l2).
  assert (foldl (loop_body env) (LoopState ∅ ∅) l1.*1
          = foldl (loop_body env') (LoopState ∅ ∅) l1.*1) as Hl1.
  { apply foldl_loop_ext. intros key Hin Hkey _. unfold resolve, env, env'.
    rewrite (getenv_app_l l1 ((k, v) :: l2) key Hin), (getenv_app_l l1 l2 key Hin).
    rewrite (getenv_remove_other l1 l2 k v (_ +:+ "_PASS"))
      by (by apply identity_key_ne_pass).
    by rewrite (getenv_remove_other l1 l2 k v (_ +:+ "_DOMAIN"))
      by (by apply identity_key_ne_domain). }
  assert (PyStr.rsplit1_head "_"%char k
            ∈ processed_prefixes (foldl (loop_body env) (LoopState ∅ ∅) l1.*1))
    as Hseen by (rewrite <- Hprefix; by apply processed_after).
  assert (loop_body env (foldl (loop_body env) (LoopState ∅ ∅) l1.*1) k
          = foldl (loop_body env) (LoopState ∅ ∅) l1.*1) as ->.
  { unfold loop_body. rewrite Hid. simpl. by rewrite bool_decide_eq_true_2. }
  rewrite <- Hl1. apply foldl_loop_ext. intros key Hin Hkey Hnew.
  assert (key ≠ k) as Hne by (intros ->; done).
  unfold resolve, env, env'.
  rewrite (getenv_remove_other l1 l2 k v key Hne).
  rewrite (getenv_remove_other l1 l2 k v (_ +:+ "_PASS"))
    by (by apply identity_key_ne_pass).
  by rewrite (getenv_remove_other l1 l2 k v (_ +:+ "_DOMAIN"))
    by (by apply identity_key_ne_domain).
Qed.

(** An override with the empty string as value is the same as no override. *)
Lemma empty_override_absent (l1 l2 : environ) (P : string) :
  P +:+ "_DOMAIN" ∉ (l1 ++ l2).*1 →
  build_sensitive_data (l1 ++ (P +:+ "_DOMAIN", "") :: l2)
  = build_sensitive_data (l1 ++ l2).
Proof.
  intros Hfresh. unfold build_sensitive_data. f_equal.
  rewrite !fmap_app, fmap_cons, !foldl_app. simpl.
  set (env := l1 ++ (P +:+ "_DOMAIN", "") :: l2). set (env' := l1 ++ l2).
  assert (∀ key, is_identity_key key = true →
            resolve env key (PyStr.rsplit1_head "_"%char key)
            = resolve env' key (PyStr.rsplit1_head "_"%char key)) as Hres.
  { intros key Hkey. unfold resolve, env, env'.
    rewrite (getenv_remove_other l1 l2 _ _ key)
      by (apply not_eq_sym; by apply identity_key_ne_domain).
    rewrite (getenv_remove_other l1 l2 _ _ (_ +:+ "_PASS")).
    2:{ intros H. apply last_segment in H as [_ H]; done. }
    destruct (decide (PyStr.rsplit1_head "_"%char key +:+ "_DOMAIN" = P +:+ "_DOMAIN"))
      as [Heq|Hne]; [|by rewrite (getenv_remove_other l1 l2 _ _ _ Hne)].
    rewrite Heq.
    assert (getenv (l1 ++ (P +:+ "_DOMAIN", "") :: l2) (P +:+ "_DOMAIN") = Some "") as ->.
    { rewrite getenv_app_r; [simpl; by rewrite String.eqb_refl|].
      intros Hin. apply Hfresh. rewrite fmap_app, elem_of_app. by left. }
    assert (getenv (l1 ++ l2) (P +:+ "_DOMAIN") = None) as ->
      by (by apply getenv_None).
    done. }
  assert (∀ keys st, foldl (loop_body env) st keys = foldl (loop_body env') st keys)
    as Hfold.
  { intros keys st. apply foldl_loop_ext. intros key _ Hkey _. by apply Hres. }
  rewrite !Hfold. f_equal. unfold loop_body. by rewrite domain_key_not_identity.
Qed.

(** The entry of a domain that no identity key of another prefix resolves
    to. *)
Lemma sole_resolver env (P k d : string) (e : gmap string string) :
  first_identity_key env P k →
  resolve env k P = Some (d, e) →
  (∀ k', k' ∈ fst <$> env → is_identity_key k' = true →
     PyStr.rsplit1_head "_"%char k' ≠ P →
     ∀ e', resolve env k' (PyStr.rsplit1_head "_"%char k') ≠ Some (d, e')) →
  build_sensitive_data env !! d = Some e.
Proof.
  intros Hfirst Hres Hothers.
  destruct (prefix_visit env P k Hfirst) as [Hin _]. rewrite Hres in Hin.
  apply (sole_writer env _ d e Hin); [done|]. simpl.
  intros v Hv Hp Hd.
  destruct (visits_seen _ _ _ _ Hv) as (Hkey & Hid & Hpre & Hw).
  unfold v_domain in Hd. destruct (v_write v) as [[d' e']|] eqn:Hwv; [|done].
  simpl in Hd. injection Hd as ->.
  apply (Hothers (v_key v) Hkey Hid ltac:(by rewrite <- Hpre) e').
  by rewrite <- Hpre, <- Hw.
Qed.

(** The result when one key is the only identity key. *)
Lemma only_identity_key env key :
  key ∈ fst <$> env → is_identity_key key = true →
  (∀ k, k ∈ fst <$> env → is_identity_key k = true → k = key) →
  build_sensitive_data env
  = match resolve env key (PyStr.rsplit1_head "_"%char key) with
    | Some (d, e) => {[ d := e ]}
    | None => ∅
    end.
Proof.
  intros Hin Hid Honly. rewrite build_replay, (trace_single env key) by done.
  simpl. unfold apply_write. simpl.
  destruct (resolve env key _) as [[d e]|]; [by rewrite insert_empty|done].
Qed.

Lemma first_identity_key_in env (P k : string) :
  first_identity_key env P k → k ∈ fst <$> env ∧ is_identity_key k = true
    ∧ PyStr.rsplit1_head "_"%char k = P.
Proof.
  intros (l1 & l2 & Heq & Hid & Hp & _). split; [|done].
  rewrite Heq, elem_of_app, elem_of_cons. auto.
Qed.

End resolver_ext.

(** C4, as stated, fails: an override that is set to the empty string is
    not used as the domain key; the static table decides instead. *)
Lemma override_set_to_empty_not_used :
  ¬ (∀ (env : environ) (P k u p d : string),
       first_identity_key env P k →
       getenv env k = Some u → u ≠ "" →
       getenv env (P +:+ "_PASS") = Some p → p ≠ "" →
       getenv env (P +:+ "_DOMAIN") = Some d →
       (∀ k', k' ∈ fst <$> env → is_identity_key k' = true → k' = k) →
       build_sensitive_data env
       = {[ d := {[ PyStr.lower P +:+ "_user" := u; PyStr.lower P +:+ "_pass" := p ]} ]}).
Proof.
  intros H.
  specialize (H [("GITHUB_USER", "me"); ("GITHUB_PASS", "pw"); ("GITHUB_DOMAIN", "")]
                "GITHUB" "GITHUB_USER" "me" "pw" ""
                ltac:(first_key (@nil string) ["GITHUB_PASS"; "GITHUB_DOMAIN"])
                eq_refl ltac:(discriminate) eq_refl ltac:(discriminate) eq_refl).
  assert (build_sensitive_data
            [("GITHUB_USER", "me"); ("GITHUB_PASS", "pw"); ("GITHUB_DOMAIN", "")] !! ""
          = None) as Hcode by (vm_compute; reflexivity).
  rewrite H in Hcode.
  - by rewrite lookup_singleton_eq in Hcode.
  - intros k' Hk' Hid.
    repeat (apply elem_of_cons in Hk' as [->|Hk']; [done || discriminate Hid|]).
    by apply elem_of_nil in Hk'.
Qed.

(** C4, amended. For a prefix [P] whose first identity key has a non-empty
    value and whose [P_PASS] is non-empty: an override [P_DOMAIN] with a
    non-empty value [d] is the domain the prefix is written under, whatever
    the static table says; [d] maps to the placeholders of [P] in the
    result when no other prefix resolves to [d], and the result is exactly
    that entry when [P] is the only prefix.  When [P_DOMAIN] is not in the
    environment and [P] is not in the static table, no entry of the result
    comes from [P], and the result is empty when [P] is the only prefix. *)
Theorem domain_override_nonempty (env : environ) (P k u p : string) :
  first_identity_key env P k →
  getenv env k = Some u → u ≠ "" →
  getenv env (P +:+ "_PASS") = Some p → p ≠ "" →
  (∀ d, getenv env (P +:+ "_DOMAIN") = Some d → d ≠ "" →
     Visit k P (Some (d, placeholders P u p)) ∈ trace env
     ∧ (∀ v, v ∈ trace env → v_prefix v = P → v_domain v = Some d)
     ∧ ((∀ v, v ∈ trace env → v_prefix v ≠ P → v_domain v ≠ Some d) →
        build_sensitive_data env !! d
        = Some {[ PyStr.lower P +:+ "_user" := u; PyStr.lower P +:+ "_pass" := p ]})
     ∧ ((∀ k', k' ∈ fst <$> env → is_identity_key k' = true →
           PyStr.rsplit1_head "_"%char k' ≠ P →
           ∀ e', resolve env k' (PyStr.rsplit1_head "_"%char k') ≠ Some (d, e')) →
        build_sensitive_data env !! d
        = Some {[ PyStr.lower P +:+ "_user" := u; PyStr.lower P +:+ "_pass" := p ]})
     ∧ ((∀ k', k' ∈ fst <$> env → is_identity_key k' = true → k' = k) →
        build_sensitive_data env
        = {[ d := {[ PyStr.lower P +:+ "_user" := u;
                     PyStr.lower P +:+ "_pass" := p ]} ]}))
  ∧ (P +:+ "_DOMAIN" ∉ fst <$> env → DOMAIN_MAP !! P = None →
     Visit k P None ∈ trace env
     ∧ (∀ v, v ∈ trace env → v_prefix v = P → v_write v = None)
     ∧ (∀ D sub, build_sensitive_data env !! D = Some sub →
          ∃ v, v ∈ trace env ∧ v_write v = Some (D, sub) ∧ v_prefix v ≠ P)
     ∧ ((∀ k', k' ∈ fst <$> env → is_identity_key k' = true → k' = k) →
        build_sensitive_data env = ∅)).
Proof.
  intros Hfirst Hu Hu' Hp Hp'.
  destruct (prefix_visit env P k Hfirst) as [Hin Huniq].
  destruct (first_identity_key_in env P k Hfirst) as (Hk & Hid & Hpre). split.
  - intros d Hd Hd'.
    assert (resolve env k P = Some (d, placeholders P u p)) as Hres.
    { apply resolve_Some; try done. rewrite Hd. by destruct d. }
    rewrite Hres in Hin, Huniq. split; [done|]. split; [|split; [|split]].
    + intros v Hv Hpv. by rewrite (Huniq v Hv Hpv).
    + intros Hothers. rewrite <- placeholders_eq.
      by apply (sole_writer env _ d _ Hin).
    + intros Hothers. rewrite <- placeholders_eq.
      by apply (sole_resolver env P k).
    + intros Honly. rewrite (only_identity_key env k Hk Hid Honly), Hpre, Hres.
      by rewrite placeholders_eq.
  - intros Hnodom Hnotab.
    assert (resolve env k P = None) as Hres.
    { apply resolve_None. right. right.
      apply getenv_None in Hnodom. by rewrite Hnodom, Hnotab. }
    rewrite Hres in Hin, Huniq. split; [done|].
    assert (∀ v, v ∈ trace env → v_prefix v = P → v_write v = None) as Hno.
    { intros v Hv Hpv. by rewrite (Huniq v Hv Hpv). }
    split; [done|]. split; [intros D sub; by apply entry_not_from|].
    intros Honly. by rewrite (only_identity_key env k Hk Hid Honly), Hpre, Hres.
Qed.

Lemma domain_override_nonempty_witness :
  build_sensitive_data
    [("GITHUB_DOMAIN", "https://ghe.corp.test"); ("GITHUB_EMAIL", "me@corp.test");
     ("GITHUB_PASS", "pw")]
  = {[ "https://ghe.corp.test"
       := {[ "github_user" := "me@corp.test"; "github_pass" := "pw" ]} ]}
  ∧ build_sensitive_data [("ACME_USER", "ops"); ("ACME_PASS", "pw")] = ∅.
Proof.
  split.
  - pose (env := [("GITHUB_DOMAIN", "https://ghe.corp.test");
                  ("GITHUB_EMAIL", "me@corp.test"); ("GITHUB_PASS", "pw")] : environ).
    assert (first_identity_key env "GITHUB" "GITHUB_EMAIL") as Hfirst
      by first_key ["GITHUB_DOMAIN"] ["GITHUB_PASS"].
    destruct (domain_override_nonempty env "GITHUB" "GITHUB_EMAIL" "me@corp.test" "pw"
                Hfirst eq_refl ltac:(discriminate) eq_refl ltac:(discriminate))
      as [Hover _].
    destruct (Hover "https://ghe.corp.test" eq_refl ltac:(discriminate))
      as (_ & _ & _ & _ & Hres).
    apply Hres. intros k' Hk' Hid.
    repeat (apply elem_of_cons in Hk' as [->|Hk']; [done || discriminate Hid|]).
    by apply elem_of_nil in Hk'.
  - pose (env := [("ACME_USER", "ops"); ("ACME_PASS", "pw")] : environ).
    assert (first_identity_key env "ACME" "ACME_USER") as Hfirst
      by first_key (@nil string) ["ACME_PASS"].
    destruct (domain_override_nonempty env "ACME" "ACME_USER" "ops" "pw"
                Hfirst eq_refl ltac:(discriminate) eq_refl ltac:(discriminate))
      as [_ Hdrop].
    destruct Hdrop as (_ & _ & _ & Hres).
    + intros Hin.
      repeat (apply elem_of_cons in Hin as [Hin|Hin]; [discriminate Hin|]).
      by apply elem_of_nil in Hin.
    + reflexivity.
    + apply Hres. intros k' Hk' Hid.
      repeat (apply elem_of_cons in Hk' as [->|Hk']; [done || discriminate Hid|]).
      by apply elem_of_nil in Hk'.
Defined.

(** C10, as stated, fails: with an empty override a prefix of the static
    table is still dropped when its password is missing. *)
Lemma empty_override_without_password :
  ¬ (∀ (env : environ) (P k D : string),
       first_identity_key env P k →
       getenv env (P +:+ "_DOMAIN") = Some "" →
       DOMAIN_MAP !! P = Some D →
       is_Some (build_sensitive_data env !! D)).
Proof.
  intros H.
  destruct (H [("GITHUB_USER", "me"); ("GITHUB_DOMAIN", "")]
              "GITHUB" "GITHUB_USER" "https://*.github.com"
              ltac:(first_key (@nil string) ["GITHUB_DOMAIN"]) eq_refl eq_refl)
    as [sub Hsub].
  vm_compute in Hsub. discriminate Hsub.
Qed.

(** C10, amended. An override [P_DOMAIN] whose value is the empty string
    counts as absent: the result is the same as without the variable.  For
    a prefix whose first identity key has a non-empty value and whose
    [P_PASS] is non-empty, the entry is written under the static table's
    domain for [P], and the prefix is dropped exactly when [P] is not in
    the static table. *)
Theorem empty_override_falls_back (env : environ) (P : string) :
  getenv env (P +:+ "_DOMAIN") = Some "" →
  (∀ l1 l2, env = l1 ++ (P +:+ "_DOMAIN", "") :: l2 →
     P +:+ "_DOMAIN" ∉ (l1 ++ l2).*1 →
     build_sensitive_data env = build_sensitive_data (l1 ++ l2))
  ∧ (∀ k u p,
       first_identity_key env P k →
       getenv env k = Some u → u ≠ "" →
       getenv env (P +:+ "_PASS") = Some p → p ≠ "" →
       Visit k P (match DOMAIN_MAP !! P with
                  | Some D => Some (D, placeholders P u p)
                  | None => None
                  end) ∈ trace env
       ∧ (∀ v, v ∈ trace env → v_prefix v = P →
            v_domain v = DOMAIN_MAP !! P
            ∧ (v_write v = None ↔ DOMAIN_MAP !! P = None))
       ∧ (∀ D, DOMAIN_MAP !! P = Some D →
            ((∀ v, v ∈ trace env → v_prefix v ≠ P → v_domain v ≠ Some D) →
             build_sensitive_data env !! D
             = Some {[ PyStr.lower P +:+ "_user" := u;
                       PyStr.lower P +:+ "_pass" := p ]})
            ∧ ((∀ k', k' ∈ fst <$> env → is_identity_key k' = true →
                  PyStr.rsplit1_head "_"%char k' ≠ P →
                  ∀ e', resolve env k' (PyStr.rsplit1_head "_"%char k') ≠ Some (D, e')) →
               build_sensitive_data env !! D
               = Some {[ PyStr.lower P +:+ "_user" := u;
                         PyStr.lower P +:+ "_pass" := p ]})
            ∧ ((∀ k', k' ∈ fst <$> env → is_identity_key k' = true → k' = k) →
               build_sensitive_data env
               = {[ D := {[ PyStr.lower P +:+ "_user" := u;
                            PyStr.lower P +:+ "_pass" := p ]} ]}))
       ∧ (DOMAIN_MAP !! P = None →
            (∀ D sub, build_sensitive_data env !! D = Some sub →
               ∃ v, v ∈ trace env ∧ v_write v = Some (D, sub) ∧ v_prefix v ≠ P)
            ∧ ((∀ k', k' ∈ fst <$> env → is_identity_key k' = true → k' = k) →
               build_sensitive_data env = ∅))).
Proof.
  intros Hd. split; [intros l1 l2 -> Hfresh; by apply empty_override_absent|].
  intros k u p Hfirst Hu Hu' Hp Hp'.
  destruct (prefix_visit env P k Hfirst) as [Hin Huniq].
  destruct (first_identity_key_in env P k Hfirst) as (Hk & Hid & Hpre).
  assert (resolve env k P = match DOMAIN_MAP !! P with
                            | Some D => Some (D, placeholders P u p)
                            | None => None
                            end) as Hres.
  { destruct (DOMAIN_MAP !! P) as [D|] eqn:HD.
    - apply resolve_Some; try done; [by rewrite Hd, HD|by eapply DOMAIN_MAP_nonempty].
    - apply resolve_None. right. right. by rewrite Hd, HD. }
  rewrite Hres in Hin, Huniq. split; [done|]. split; [|split].
  - intros v Hv Hpv. rewrite (Huniq v Hv Hpv). unfold v_domain. simpl.
    by destruct (DOMAIN_MAP !! P).
  - intros D HD. rewrite HD in Hin, Hres. split; [|split].
    + intros Hothers. rewrite <- placeholders_eq.
      by apply (sole_writer env _ D _ Hin).
    + intros Hothers. rewrite <- placeholders_eq. by apply (sole_resolver env P k).
    + intros Honly. rewrite (only_identity_key env k Hk Hid Honly), Hpre, Hres.
      by rewrite placeholders_eq.
  - intros HD. rewrite HD in Hin, Huniq, Hres. split.
    + intros D sub. apply entry_not_from. intros v Hv Hpv. by rewrite (Huniq v Hv Hpv).
    + intros Honly. by rewrite (only_identity_key env k Hk Hid Honly), Hpre, Hres.
Qed.

Lemma empty_override_falls_back_witness :
  build_sensitive_data [("AWS_USER", "ops"); ("AWS_DOMAIN", ""); ("AWS_PASS", "pw")]
  = {[ "https://*.aws.amazon.com" := {[ "aws_user" := "ops"; "aws_pass" := "pw" ]} ]}
  ∧ build_sensitive_data [("ACME_USER", "ops"); ("ACME_DOMAIN", ""); ("ACME_PASS", "pw")]
    = ∅
  ∧ build_sensitive_data [("AWS_USER", "ops"); ("AWS_DOMAIN", ""); ("AWS_PASS", "pw")]
    = build_sensitive_data [("AWS_USER", "ops"); ("AWS_PASS", "pw")].
Proof.
  split; [|split].
  - destruct (empty_override_falls_back
                [("AWS_USER", "ops"); ("AWS_DOMAIN", ""); ("AWS_PASS", "pw")]
                "AWS" eq_refl) as [_ Hprefix].
    destruct (Hprefix "AWS_USER" "ops" "pw"
                ltac:(first_key (@nil string) ["AWS_DOMAIN"; "AWS_PASS"])
                eq_refl ltac:(discriminate) eq_refl ltac:(discriminate))
      as (_ & _ & Htab & _).
    destruct (Htab "https://*.aws.amazon.com" eq_refl) as (_ & _ & Hres).
    apply Hres. intros k' Hk' Hid.
    repeat (apply elem_of_cons in Hk' as [->|Hk']; [done || discriminate Hid|]).
    by apply elem_of_nil in Hk'.
  - destruct (empty_override_falls_back
                [("ACME_USER", "ops"); ("ACME_DOMAIN", ""); ("ACME_PASS", "pw")]
                "ACME" eq_refl) as [_ Hprefix].
    destruct (Hprefix "ACME_USER" "ops" "pw"
                ltac:(first_key (@nil string) ["ACME_DOMAIN"; "ACME_PASS"])
                eq_refl ltac:(discriminate) eq_refl ltac:(discriminate))
      as (_ & _ & _ & Hdrop).
    destruct (Hdrop eq_refl) as [_ Hres].
    apply Hres. intros k' Hk' Hid.
    repeat (apply elem_of_cons in Hk' as [->|Hk']; [done || discriminate Hid|]).
    by apply elem_of_nil in Hk'.
  - destruct (empty_override_falls_back
                [("AWS_USER", "ops"); ("AWS_DOMAIN", ""); ("AWS_PASS", "pw")]
                "AWS" eq_refl) as [Hframe _].
    apply (Hframe [("AWS_USER", "ops")] [("AWS_PASS", "pw")] eq_refl).
    intros Hin.
    repeat (apply elem_of_cons in Hin as [Hin|Hin]; [discriminate Hin|]).
    by apply elem_of_nil in Hin.
Defined.

(** C5. [build_sensitive_data] is a total function of the environment (it
    has no failing path).  A prefix [FOO] with [FOO_USER] in the environment
    and [FOO_PASS] absent or empty is the origin of no entry of the result;
    a visited prefix whose identity value, password or domain is missing or
    empty performs no assignment; and an environment in which every identity
    key lacks a non-empty password resolves to the empty mapping. *)
Theorem incomplete_prefix_omitted (env : environ) :
  (∀ foo, foo +:+ "_USER" ∈ fst <$> env →
     PyStr.truthy (getenv env (foo +:+ "_PASS")) = false →
     (∀ v, v ∈ trace env → v_prefix v = foo → v_write v = None)
     ∧ (∀ D sub, build_sensitive_data env !! D = Some sub →
          ∃ v, v ∈ trace env ∧ v_write v = Some (D, sub) ∧ v_prefix v ≠ foo))
  ∧ (∀ v, v ∈ trace env →
       PyStr.truthy (getenv env (v_key v)) = false
       ∨ PyStr.truthy (getenv env (v_prefix v +:+ "_PASS")) = false
       ∨ PyStr.truthy (PyStr.or_else (getenv env (v_prefix v +:+ "_DOMAIN"))
                                     (DOMAIN_MAP !! v_prefix v)) = false →
       v_write v = None)
  ∧ ((∀ k, k ∈ fst <$> env → is_identity_key k = true →
        PyStr.truthy (getenv env (PyStr.rsplit1_head "_"%char k +:+ "_PASS")) = false) →
     build_sensitive_data env = ∅).
Proof.
  assert (∀ v, v ∈ trace env →
     PyStr.truthy (getenv env (v_key v)) = false
     ∨ PyStr.truthy (getenv env (v_prefix v +:+ "_PASS")) = false
     ∨ PyStr.truthy (PyStr.or_else (getenv env (v_prefix v +:+ "_DOMAIN"))
                                   (DOMAIN_MAP !! v_prefix v)) = false →
     v_write v = None) as Hdrop.
  { intros v Hv Hbad. destruct (visits_seen _ _ _ _ Hv) as (_ & _ & _ & ->).
    by apply resolve_None. }
  split; [|split; [done|]].
  - intros foo _ Hpass.
    assert (∀ v, v ∈ trace env → v_prefix v = foo → v_write v = None) as Hno.
    { intros v Hv <-. apply Hdrop; auto. }
    split; [done|]. intros D sub. by apply entry_not_from.
  - intros Hall. apply no_writes_empty. intros v Hv. apply Hdrop; [done|].
    right. left. destruct (visits_seen _ _ _ _ Hv) as (Hk & Hid & -> & _).
    apply Hall; [|done]. unfold trace in Hv. done.
Qed.

Lemma incomplete_prefix_omitted_witness :
  build_sensitive_data [("FOO_USER", "u"); ("FOO_PASS", ""); ("BAR_EMAIL", "b@x")] = ∅.
Proof.
  apply (incomplete_prefix_omitted [("FOO_USER", "u"); ("FOO_PASS", ""); ("BAR_EMAIL", "b@x")]).
  intros k Hk Hid.
  repeat (apply elem_of_cons in Hk as [->|Hk]; [reflexivity || discriminate Hid|]).
  by apply elem_of_nil in Hk.
Defined.

(** C6. Each distinct prefix is processed exactly once.  On the result:
    the identity value of every entry is the value of the first identity
    key of its prefix in enumeration order; a complete prefix is written,
    with the value of that first key, under its domain (and stays there
    when no other prefix resolves to that domain); and a later [_USER] or
    [_EMAIL] key of a prefix that already had an identity key is ignored:
    the result is the same without it.  On the iterations: no prefix is
    visited twice, the prefix of every identity key is visited, and the
    visit is made at the first identity key of the prefix. *)
Theorem each_prefix_processed_once (env : environ) :
  NoDup (v_prefix <$> trace env)
  ∧ (∀ k, k ∈ fst <$> env → is_identity_key k = true →
       PyStr.rsplit1_head "_"%char k ∈ v_prefix <$> trace env)
  ∧ (∀ v, v ∈ trace env →
       first_identity_key env (v_prefix v) (v_key v)
       ∧ v_write v = resolve env (v_key v) (v_prefix v)
       ∧ ∀ d e, v_write v = Some (d, e) →
           e !! (PyStr.lower (v_prefix v) +:+ "_user") = getenv env (v_key v))
  ∧ (∀ P k, first_identity_key env P k →
       ∀ v, v ∈ trace env → v_prefix v = P → v_key v = k)
  ∧ (∀ D sub, build_sensitive_data env !! D = Some sub →
       ∃ P k u, first_identity_key env P k ∧ getenv env k = Some u
         ∧ sub !! (PyStr.lower P +:+ "_user") = Some u)
  ∧ (∀ P k u p d,
       first_identity_key env P k →
       getenv env k = Some u → u ≠ "" →
       getenv env (P +:+ "_PASS") = Some p → p ≠ "" →
       PyStr.or_else (getenv env (P +:+ "_DOMAIN")) (DOMAIN_MAP !! P) = Some d →
       d ≠ "" →
       (∀ k', k' ∈ fst <$> env → is_identity_key k' = true →
          PyStr.rsplit1_head "_"%char k' ≠ P →
          ∀ e', resolve env k' (PyStr.rsplit1_head "_"%char k') ≠ Some (d, e')) →
       build_sensitive_data env !! d
       = Some {[ PyStr.lower P +:+ "_user" := u; PyStr.lower P +:+ "_pass" := p ]})
  ∧ (∀ l1 l2 k v k0,
       env = l1 ++ (k, v) :: l2 →
       k0 ∈ l1.*1 → is_identity_key k0 = true → is_identity_key k = true →
       PyStr.rsplit1_head "_"%char k0 = PyStr.rsplit1_head "_"%char k →
       build_sensitive_data env = build_sensitive_data (l1 ++ l2)).
Proof.
  split; [apply visits_NoDup|]. split; [|split; [|split; [|split; [|split]]]].
  - intros k Hk Hid.
    destruct (visits_complete env ∅ _ _ Hk Hid) as [Hin|Hin]; [|done].
    by apply elem_of_empty in Hin.
  - intros v Hv. split; [by apply visit_first|].
    destruct (visits_seen _ _ _ _ Hv) as (_ & _ & _ & Hres). split; [done|].
    intros d e Hw. rewrite Hw in Hres. symmetry in Hres.
    apply resolve_inv in Hres as (u & p & -> & _ & _ & _ & _ & _ & ->).
    rewrite placeholders_eq. apply lookup_insert_eq.
  - intros P k Hfirst v Hv Hp.
    destruct (prefix_visit env P k Hfirst) as [_ Huniq].
    by rewrite (Huniq v Hv Hp).
  - intros D sub (v & Hv & Hw)%entry_origin.
    destruct (visits_seen _ _ _ _ Hv) as (_ & _ & _ & Hres).
    rewrite Hw in Hres. symmetry in Hres.
    apply resolve_inv in Hres as (u & p & Hu & _ & _ & _ & _ & _ & ->).
    exists (v_prefix v), (v_key v), u. split; [by apply visit_first|].
    split; [done|]. rewrite placeholders_eq. apply lookup_insert_eq.
  - intros P k u p d Hfirst Hu Hu' Hp Hp' Hd Hd' Hothers.
    rewrite <- placeholders_eq. apply (sole_resolver env P k); [done| |done].
    by apply resolve_Some.
  - intros l1 l2 k v k0 -> Hk0 Hid0 Hid Hpre.
    by apply (later_identity_key_ignored l1 l2 k v k0).
Qed.

Lemma each_prefix_processed_once_witness :
  build_sensitive_data
    [("X_EMAIL", "e@x"); ("X_USER", "u"); ("X_PASS", "p"); ("X_DOMAIN", "d")] !! "d"
  = Some {[ "x_user" := "e@x"; "x_pass" := "p" ]}
  ∧ build_sensitive_data
      [("X_EMAIL", "e@x"); ("X_USER", "u"); ("X_PASS", "p"); ("X_DOMAIN", "d")]
    = build_sensitive_data [("X_EMAIL", "e@x"); ("X_PASS", "p"); ("X_DOMAIN", "d")].
Proof.
  destruct (each_prefix_processed_once
              [("X_EMAIL", "e@x"); ("X_USER", "u"); ("X_PASS", "p"); ("X_DOMAIN", "d")])
    as (_ & _ & _ & _ & _ & Hwritten & Hignored).
  split.
  - apply (Hwritten "X" "X_EMAIL" "e@x" "p" "d");
      [first_key (@nil string) ["X_USER"; "X_PASS"; "X_DOMAIN"]
      |reflexivity|discriminate|reflexivity|discriminate|reflexivity|discriminate|].
    intros k' Hk' Hid Hne.
    repeat (apply elem_of_cons in Hk' as [->|Hk'];
            [first [discriminate Hid | by destruct Hne]|]).
    by apply elem_of_nil in Hk'.
  - apply (Hignored [("X_EMAIL", "e@x")] [("X_PASS", "p"); ("X_DOMAIN", "d")]
             "X_USER" "u" "X_EMAIL" eq_refl); [by left|reflexivity..].
Defined.

(** C9. When the first identity key of a prefix in enumeration order has an
    empty value, the prefix performs no assignment and is the origin of no
    entry, whatever a later identity key of the same prefix, its password
    and its domain are: the prefix is recorded as processed before the
    value is examined. *)
Theorem empty_first_identity_drops_prefix (env : environ) (P k : string) :
  first_identity_key env P k →
  getenv env k = Some "" →
  Visit k P None ∈ trace env
  ∧ (∀ v, v ∈ trace env → v_prefix v = P → v_key v = k ∧ v_write v = None)
  ∧ (∀ D sub, build_sensitive_data env !! D = Some sub →
       ∃ v, v ∈ trace env ∧ v_write v = Some (D, sub) ∧ v_prefix v ≠ P).
Proof.
  intros Hfirst Hempty.
  destruct (prefix_visit env P k Hfirst) as [Hin Huniq].
  assert (resolve env k P = None) as Hres
    by (apply resolve_None; left; by rewrite Hempty).
  rewrite Hres in Hin, Huniq. split; [done|].
  assert (∀ v, v ∈ trace env → v_prefix v = P → v_key v = k ∧ v_write v = None) as Hno.
  { intros v Hv Hp. by rewrite (Huniq v Hv Hp). }
  split; [done|]. intros D sub. apply entry_not_from. intros v Hv Hp.
  by apply Hno.
Qed.

Lemma empty_first_identity_drops_prefix_witness :
  Visit "X_USER" "X" None
    ∈ trace [("X_USER", ""); ("X_EMAIL", "e@x"); ("X_PASS", "p"); ("X_DOMAIN", "d")]
  ∧ build_sensitive_data
      [("X_USER", ""); ("X_EMAIL", "e@x"); ("X_PASS", "p"); ("X_DOMAIN", "d")] = ∅.
Proof.
  split; [|vm_compute; reflexivity].
  refine (proj1 (empty_first_identity_drops_prefix
    [("X_USER", ""); ("X_EMAIL", "e@x"); ("X_PASS", "p"); ("X_DOMAIN", "d")]
    "X" "X_USER" _ eq_refl)).
  first_key (@nil string) ["X_EMAIL"; "X_PASS"; "X_DOMAIN"].
Defined.

(** ** Paths *)

Section path_facts.

Implicit Types (p d : Path) (n : string).

Lemma split_no_sep (sep : ascii) (s : string) :
  PyStr.has_char sep s = false → PyPath.split sep s = [s].
Proof.
  induction s as [|c s IH]; [done|]. simpl.
  intros [Hc Hs]%orb_false_iff. by rewrite Hc, IH.
Qed.

Lemma splitroot_relative (s : string) :
  PyStr.has_char "/" s = false → PyPath.splitroot s = ("", s).
Proof.
  destruct s as [|c s]; [done|]. simpl. intros [Hc _]%orb_false_iff.
  destruct c as [[] [] [] [] [] [] [] []]; try reflexivity; discriminate Hc.
Qed.

(** A single component parses to itself. *)
Lemma parse_component n :
  PyPath.kept n = true → PyStr.has_char "/" n = false →
  PyPath.parse n = PyPath.MkPath "" [n].
Proof.
  intros Hkept Hsep. unfold PyPath.parse.
  rewrite splitroot_relative, split_no_sep by done. simpl. by rewrite Hkept.
Qed.

(** Joining a single component appends it. *)
Lemma truediv_component p n :
  PyPath.kept n = true → PyStr.has_char "/" n = false →
  PyPath.truediv p n = PyPath.child p n.
Proof. intros Hkept Hsep. unfold PyPath.truediv. by rewrite parse_component. Qed.

Lemma name_child p n : PyPath.name (PyPath.child p n) = n.
Proof. unfold PyPath.name, PyPath.child. simpl. apply last_last. Qed.

Lemma parts_leb_total (l1 l2 : list string) :
  PyPath.parts_leb l1 l2 = true ∨ PyPath.parts_leb l2 l1 = true.
Proof.
  revert l2. induction l1 as [|a l1 IH]; intros [|b l2]; simpl; auto.
  destruct (String.eqb_spec a b) as [->|Hne].
  - rewrite String.eqb_refl. apply IH.
  - destruct (String.eqb_spec b a) as [->|_]; [done|]. apply String.leb_total.
Qed.

Global Instance path_le_total : Total PyPath.le.
Proof.
  intros p q. unfold PyPath.le.
  destruct (parts_leb_total (PyPath.root p :: PyPath.tail p)
                            (PyPath.root q :: PyPath.tail q)) as [->| ->]; auto.
Qed.

(** Two entries of one directory compare as their names do. *)
Lemma parts_leb_last (l : list string) (n1 n2 : string) :
  PyPath.parts_leb (l ++ [n1]) (l ++ [n2]) = String.leb n1 n2.
Proof.
  induction l as [|a l IH]; simpl.
  - destruct (String.eqb_spec n1 n2) as [->|_]; [|done].
    symmetry. apply Is_true_true. change (String.le n2 n2). reflexivity.
  - by rewrite String.eqb_refl.
Qed.

Lemma child_le d n1 n2 :
  PyPath.le (PyPath.child d n1) (PyPath.child d n2) ↔ String.le n1 n2.
Proof.
  unfold PyPath.le, PyPath.child, String.le. simpl.
  by rewrite String.eqb_refl, parts_leb_last.
Qed.

(** Sorting the entries of one directory sorts their names. *)
Lemma sorted_children d (ns : list string) :
  PyPath.name <$> sorted (PyPath.child d <$> ns) = merge_sort String.le ns.
Proof.
  apply (Sorted_unique String.le); [|apply Sorted_merge_sort; apply _|].
  - unfold sorted.
    assert (Forall (λ p, ∃ n, p = PyPath.child d n)
              (merge_sort PyPath.le (PyPath.child d <$> ns))) as Hall.
    { apply Forall_forall. intros p Hp.
      rewrite merge_sort_Permutation in Hp.
      apply list_elem_of_fmap in Hp as (n & -> & _). eauto. }
    pose proof (Sorted_merge_sort PyPath.le (PyPath.child d <$> ns)) as Hs.
    induction Hs as [|p l Hs IH Hhd]; [constructor|].
    apply Forall_cons in Hall as [(n & ->) Hall]. rewrite fmap_cons.
    constructor; [by apply IH|].
    destruct Hhd as [|q l Hle]; [constructor|].
    apply Forall_cons in Hall as [(m & ->) _]. rewrite fmap_cons. constructor.
    rewrite !name_child. by apply child_le in Hle.
  - unfold sorted. rewrite !merge_sort_Permutation, <- list_fmap_compose.
    rewrite (list_fmap_ext _ id ns); [by rewrite list_fmap_id|].
    intros i n _. apply name_child.
Qed.

End path_facts.

(** ** The file system *)

Section fs_facts.

Implicit Types (fs : filesystem) (d : Path) (n : string).
Implicit Types (es : list (string * node)).

(** The last component, when it is not ['..'], is looked up in the
    directory the components before it lead to. *)
Lemma walk_snoc (up : list node) (cur : node) (l : list string) n :
  n ≠ ".." →
  walk up cur (l ++ [n])
  = match walk up cur l with
    | Some (Dir es) => dir_lookup n es
    | _ => None
    end.
Proof.
  intros Hn. revert up cur. induction l as [|m l IH]; intros up cur; simpl.
  - destruct cur as [|es]; [done|].
    apply String.eqb_neq in Hn. rewrite Hn. by destruct (dir_lookup n es).
  - destruct cur as [|es]; [done|].
    destruct (String.eqb m ".."); [by destruct up|].
    by destruct (dir_lookup m es).
Qed.

Lemma stat_child fs d n :
  n ≠ ".." →
  stat fs (PyPath.child d n)
  = match stat fs d with
    | Some (Dir es) => dir_lookup n es
    | _ => None
    end.
Proof.
  intros Hn. unfold stat, PyPath.child. simpl.
  destruct (String.eqb (PyPath.root d) ""); [rewrite app_assoc|]; by apply walk_snoc.
Qed.

Lemma dir_lookup_NoDup es n (c : node) :
  NoDup es.*1 → (n, c) ∈ es → dir_lookup n es = Some c.
Proof.
  induction es as [|[m c'] es IH]; [by intros _ ?%elem_of_nil|].
  rewrite fmap_cons, NoDup_cons. simpl. intros [Hm Hnd] [[= -> ->]|Hin]%elem_of_cons.
  - by rewrite String.eqb_refl.
  - destruct (String.eqb_spec m n) as [->|_]; [|by apply IH].
    destruct Hm. apply list_elem_of_fmap. by exists (n, c).
Qed.

Lemma dir_lookup_Some es n (c : node) : dir_lookup n es = Some c → (n, c) ∈ es.
Proof.
  induction es as [|[m c'] es IH]; [done|]. simpl.
  destruct (String.eqb_spec m n) as [->|_].
  - intros [= ->]. by left.
  - intros ?%IH. by right.
Qed.

Lemma valid_entry_name_not_parent n : valid_entry_name n = true → n ≠ "..".
Proof.
  unfold valid_entry_name. intros [[_ H]%andb_true_iff _]%andb_true_iff.
  apply negb_true_iff in H. by apply String.eqb_neq.
Qed.

Lemma valid_entry_name_component n :
  valid_entry_name n = true → PyPath.kept n = true ∧ PyStr.has_char "/" n = false.
Proof.
  unfold valid_entry_name. intros [[H _]%andb_true_iff H']%andb_true_iff.
  by apply negb_true_iff in H'.
Qed.

(** The entries of a well-formed directory that pass [is_dir] are its
    subdirectories. *)
Lemma filter_is_dir fs d es :
  stat fs d = Some (Dir es) → listing_ok es →
  filter (λ p, is_dir fs p) (PyPath.child d <$> es.*1) = PyPath.child d <$> subdirs es.
Proof.
  intros Hd [Hnd Hvalid].
  assert (∀ l, (∀ n c, (n, c) ∈ l → (n, c) ∈ es) →
            filter (λ p, is_dir fs p) (PyPath.child d <$> l.*1)
            = PyPath.child d <$> subdirs l) as Hgen.
  { induction l as [|[n c] l IH]; intros Hl; [done|].
    assert (is_dir fs (PyPath.child d n) = node_is_dir c) as Hdir.
    { unfold is_dir. rewrite stat_child, Hd.
      - rewrite (dir_lookup_NoDup es n c) by (try apply Hl; by try left).
        by destruct c.
      - apply valid_entry_name_not_parent.
        rewrite Forall_forall in Hvalid. apply Hvalid.
        apply list_elem_of_fmap. exists (n, c). split; [done|]. apply Hl. by left. }
    rewrite !fmap_cons. unfold subdirs. simpl.
    assert (filter (λ p, is_dir fs p) (PyPath.child d <$> l.*1)
            = PyPath.child d <$> subdirs l) as IH'
      by (apply IH; intros n' c' ?; apply Hl; by right).
    destruct (node_is_dir c) eqn:Hc.
    - rewrite filter_cons_True by (by rewrite Hdir).
      rewrite (filter_cons_True _ (n, c)) by (simpl; by rewrite Hc).
      by rewrite !fmap_cons, IH'.
    - rewrite filter_cons_False by (rewrite Hdir; intros []).
      rewrite (filter_cons_False _ (n, c)) by (simpl; rewrite Hc; intros []).
      apply IH'. }
  by apply Hgen.
Qed.

End fs_facts.

(** ** Profile store: the claims *)


(** The path depends on the environment of the call: with another [HOME]
    the same name gets another path. *)
Lemma profile_path_follows_home :
  profile_path [("HOME", "/home/a")] None "p" ≠ profile_path [("HOME", "/home/b")] None "p".
Proof. vm_compute. discriminate. Qed.



(** C3. The claim holds of the profile store but not of the fixture: with
    a regular file at the profile path there is no profile directory
    ([is_dir] is false, [list_profiles] lists nothing, [setup_profile] is
    refused with [FileExistsError]), yet [browser_with_profile] does not
    skip: it yields a browser on the path of the file. *)
Theorem regular_file_accepted_as_profile :
  let home := PyPath.MkPath "/" ["home"; "u"] in
  let fs := FileSystem
              (Dir [("home", Dir [("u", Dir [(".browser-use-profiles",
                      Dir [("github-2fa", File)])])])]) [] in
  is_dir fs (get_profile_path home "github-2fa") = false
  ∧ browser_with_profile true home fs "github-2fa"
    = Yielded (MkBrowser false (Some "/home/u/.browser-use-profiles/github-2fa"))
  ∧ list_profiles home fs = inr ["No profiles found."]
  ∧ sr_raised (setup_profile true home fs "https://github.com/login" "github-2fa")
    = Some EEXIST.
Proof. repeat split. Qed.

(** X21. What the fixture [browser_with_profile] does: without browser-use
    it raises [ModuleNotFoundError] before it looks at the path; with
    browser-use it skips, with the message "not found", exactly when
    nothing exists at the profile path, and otherwise yields a visible
    browser bound to that path.  For a valid entry name and an existing
    profile root, it skips exactly when the root lists no entry of that
    name. *)
Theorem missing_profile_skipped (home : Path) (fs : filesystem) (n : string) :
  browser_with_profile false home fs n = ModuleNotFound
  ∧ ((∃ reason, browser_with_profile true home fs n = Skipped reason)
   ↔ stat fs (get_profile_path home n) = None)
  ∧ (stat fs (get_profile_path home n) = None →
     browser_with_profile true home fs n
     = Skipped ("Profile '" +:+ n +:+ "' not found. Run setup_profile.py first."))
  ∧ (∀ c, stat fs (get_profile_path home n) = Some c →
     browser_with_profile true home fs n
     = Yielded (MkBrowser false (Some (PyPath.str (get_profile_path home n)))))
  ∧ (∀ es, valid_entry_name n = true →
       stat fs (PROFILES_DIR home) = Some (Dir es) →
       ((∃ reason, browser_with_profile true home fs n = Skipped reason)
        ↔ dir_lookup n es = None)).
Proof.
  assert ((∃ reason, browser_with_profile true home fs n = Skipped reason)
          ↔ stat fs (get_profile_path home n) = None) as Hiff.
  { unfold browser_with_profile, path_exists.
    destruct (stat fs (get_profile_path home n)); simpl; split; try done.
    - by intros [reason Hr].
    - eauto. }
  split; [done|]. split; [done|]. split; [|split].
  - intros Hnone. unfold browser_with_profile, path_exists. by rewrite Hnone.
  - intros c Hc. unfold browser_with_profile, path_exists. by rewrite Hc.
  - intros es Hvalid Hroot. rewrite Hiff.
    destruct (valid_entry_name_component n Hvalid) as [Hkept Hsep].
    unfold get_profile_path. fold (PROFILES_DIR home).
    rewrite truediv_component, stat_child, Hroot by
      (done || by apply valid_entry_name_not_parent).
    done.
Qed.

Lemma missing_profile_skipped_witness :
  browser_with_profile true (PyPath.MkPath "/" ["home"; "u"])
    (FileSystem (Dir [("home", Dir [("u", Dir [(".browser-use-profiles",
                        Dir [("github-2fa", Dir [])])])])]) [])
    "gitlab-2fa"
  = Skipped "Profile 'gitlab-2fa' not found. Run setup_profile.py first.".
Proof.
  apply (missing_profile_skipped (PyPath.MkPath "/" ["home"; "u"])
    (FileSystem (Dir [("home", Dir [("u", Dir [(".browser-use-profiles",
                        Dir [("github-2fa", Dir [])])])])]) [])
    "gitlab-2fa").
  reflexivity.
Defined.

(** A regular file at the profile root passes the test [exists()] of line
    44, and [iterdir] then raises. *)
Lemma list_profiles_not_a_directory (home : Path) (fs : filesystem) :
  stat fs (PROFILES_DIR home) = Some File →
  is_dir fs (PROFILES_DIR home) = false
  ∧ list_profiles home fs = inl NotADirectoryError.
Proof.
  intros Hroot. unfold is_dir, list_profiles, path_exists, iterdir. by rewrite Hroot.
Qed.

(** C7. The claim fails on the code where the profile root is a regular
    file: the root directory does not exist, yet [list_profiles] does not
    give an empty result; the [NotADirectoryError] of [iterdir] escapes
    it.  The fixture, on the same tree, reports the profile as not
    found. *)
Theorem list_profiles_root_is_file :
  let home := PyPath.MkPath "/" ["home"; "u"] in
  let fs := FileSystem
              (Dir [("home", Dir [("u", Dir [(".browser-use-profiles", File)])])]) [] in
  is_dir fs (PROFILES_DIR home) = false
  ∧ list_profiles home fs = inl NotADirectoryError
  ∧ browser_with_profile true home fs "github-2fa"
    = Skipped "Profile 'github-2fa' not found. Run setup_profile.py first.".
Proof. repeat split. Qed.

(** X22. For a profile root that is a directory with a well-formed
    listing, [list_profiles] prints exactly the immediate subdirectories of
    the root, regular files left out, in lexicographic order of their
    names; when nothing exists at the root it prints that no profiles
    directory was found and lists nothing, without raising an error. *)
Theorem list_profiles_sorted_subdirectories (home : Path) (fs : filesystem) :
  (stat fs (PROFILES_DIR home) = None →
   list_profiles home fs = inr ["No profiles directory found."])
  ∧ (∀ es, stat fs (PROFILES_DIR home) = Some (Dir es) → listing_ok es →
       list_profiles home fs
       = inr (listing_output home (merge_sort String.le (subdirs es)))
       ∧ Sorted String.le (merge_sort String.le (subdirs es))
       ∧ merge_sort String.le (subdirs es) ≡ₚ subdirs es).
Proof.
  split.
  - intros Hnone. unfold list_profiles, path_exists. by rewrite Hnone.
  - intros es Hroot Hok.
    split; [|split; [apply Sorted_merge_sort; apply _|apply merge_sort_Permutation]].
    unfold list_profiles, path_exists, iterdir. rewrite Hroot. simpl.
    rewrite (filter_is_dir fs _ es Hroot Hok).
    destruct (subdirs es) as [|n ns] eqn:Hsub; [done|].
    rewrite fmap_cons. rewrite <- fmap_cons.
    rewrite (list_fmap_compose PyPath.name (λ n, "  - " +:+ n)), sorted_children.
    unfold listing_output.
    destruct (merge_sort String.le (n :: ns)) as [|m ms] eqn:Hms; [|done].
    pose proof (merge_sort_Permutation String.le (n :: ns)) as Hperm.
    rewrite Hms in Hperm. by apply Permutation_nil_cons in Hperm.
Qed.

Lemma list_profiles_sorted_subdirectories_witness :
  list_profiles (PyPath.MkPath "/" ["home"; "u"])
    (FileSystem (Dir [("home", Dir [("u", Dir [(".browser-use-profiles",
        Dir [("b", Dir []); ("notes.txt", File); ("a", Dir [("Default", File)])])])])])
       [])
  = inr [ "Profiles in /home/u/.browser-use-profiles:" +:+ String "010"%char "";
          "  - a"; "  - b" ].
Proof.
  refine (proj1 (proj2 (list_profiles_sorted_subdirectories
    (PyPath.MkPath "/" ["home"; "u"])
    (FileSystem (Dir [("home", Dir [("u", Dir [(".browser-use-profiles",
        Dir [("b", Dir []); ("notes.txt", File); ("a", Dir [("Default", File)])])])])])
       []))
    [("b", Dir []); ("notes.txt", File); ("a", Dir [("Default", File)])] eq_refl _)).
  split.
  - apply (bool_decide_eq_true_1 _). vm_compute. reflexivity.
  - repeat constructor.
Defined.

(** * Further properties *)

(** ** Credential resolver *)

Section resolver_frame.

Context (env1 env2 : environ) (k v : string).

Lemma getenv_insert_other (key : string) :
  key ≠ k → getenv (env1 ++ (k, v) :: env2) key = getenv (env1 ++ env2) key.
Proof.
  intros Hne. induction env1 as [|[k' v'] env IH]; simpl.
  - apply not_eq_sym in Hne. apply String.eqb_neq in Hne. by rewrite Hne.
  - by rewrite IH.
Qed.

Lemma reserved_key_ne (prefix suffix : string) :
  reserved_key k = false →
  suffix = "_USER" ∨ suffix = "_EMAIL" ∨ suffix = "_PASS" ∨ suffix = "_DOMAIN" →
  prefix +:+ suffix ≠ k.
Proof.
  unfold reserved_key. intros Hk Hs <-.
  apply orb_false_iff in Hk as [Hk Hd]. apply orb_false_iff in Hk as [Hk Hp].
  apply orb_false_iff in Hk as [Hu He].
  assert (PyStr.endswith (prefix +:+ suffix) suffix = true) as Hend
    by (apply endswith_spec; eauto).
  destruct Hs as [->|[->|[->| ->]]]; congruence.
Qed.

(** An item whose key has none of the four suffixes is read by no
    iteration. *)
Lemma loop_body_frame (st : loop_state) (key : string) :
  reserved_key k = false →
  loop_body (env1 ++ (k, v) :: env2) st key = loop_body (env1 ++ env2) st key.
Proof.
  intros Hk. unfold loop_body.
  destruct (is_identity_key key) eqn:Hid; simpl; [|done].
  case_bool_decide; [done|].
  assert (resolve (env1 ++ (k, v) :: env2) key (PyStr.rsplit1_head "_"%char key)
          = resolve (env1 ++ env2) key (PyStr.rsplit1_head "_"%char key)) as ->; [|done].
  unfold resolve. rewrite !getenv_insert_other; [done|..].
  - apply reserved_key_ne; auto.
  - apply reserved_key_ne; auto.
  - destruct (identity_key_inv key Hid) as [Hkey|Hkey]; rewrite Hkey;
      apply reserved_key_ne; auto.
Qed.

End resolver_frame.

(** X1. A variable whose name ends in none of [_USER], [_EMAIL], [_PASS]
    and [_DOMAIN] has no influence on the result, wherever it stands in the
    enumeration and whatever its value. *)
Theorem unrelated_variable_ignored (env1 env2 : environ) (k v : string) :
  reserved_key k = false →
  build_sensitive_data (env1 ++ (k, v) :: env2) = build_sensitive_data (env1 ++ env2).
Proof.
  intros Hk. unfold build_sensitive_data. f_equal.
  rewrite !fmap_app, fmap_cons, !foldl_app. simpl.
  assert (∀ keys st, foldl (loop_body (env1 ++ (k, v) :: env2)) st keys
                     = foldl (loop_body (env1 ++ env2)) st keys) as Hfold.
  { induction keys as [|key keys IH]; intros st; [done|]. simpl.
    by rewrite loop_body_frame, IH. }
  rewrite !Hfold. f_equal. unfold loop_body at 1.
  assert (is_identity_key k = false) as ->; [|done].
  unfold reserved_key in Hk. unfold is_identity_key.
  apply orb_false_iff in Hk as [Hk _]. by apply orb_false_iff in Hk as [Hk _].
Qed.

Lemma unrelated_variable_ignored_witness :
  build_sensitive_data
    [("GITHUB_USER", "me"); ("HEADLESS", "false"); ("GITHUB_PASS", "pw")]
  = build_sensitive_data [("GITHUB_USER", "me"); ("GITHUB_PASS", "pw")].
Proof.
  apply (unrelated_variable_ignored [("GITHUB_USER", "me")] [("GITHUB_PASS", "pw")]
           "HEADLESS" "false").
  reflexivity.
Defined.

(** X2. Every entry of the result comes from one complete prefix: its
    domain is not empty and is either the value of [P_DOMAIN] or, when that
    is absent or empty, the static table's domain for [P]; its two values
    are the non-empty values of the first identity key of [P] and of
    [P_PASS]. *)
Theorem entry_provenance (env : environ) (D : string) (sub : gmap string string) :
  build_sensitive_data env !! D = Some sub →
  D ≠ ""
  ∧ ∃ P k u p,
      first_identity_key env P k
      ∧ (k = P +:+ "_USER" ∨ k = P +:+ "_EMAIL")
      ∧ getenv env k = Some u ∧ u ≠ ""
      ∧ getenv env (P +:+ "_PASS") = Some p ∧ p ≠ ""
      ∧ sub = {[ PyStr.lower P +:+ "_user" := u; PyStr.lower P +:+ "_pass" := p ]}
      ∧ (getenv env (P +:+ "_DOMAIN") = Some D
         ∨ (PyStr.truthy (getenv env (P +:+ "_DOMAIN")) = false
            ∧ DOMAIN_MAP !! P = Some D)).
Proof.
  intros (v & Hv & Hw)%entry_origin.
  pose proof (visit_first env v Hv) as Hfirst.
  destruct (visits_seen _ _ _ _ Hv) as (_ & Hid & Hp & Hres).
  rewrite Hw in Hres. symmetry in Hres.
  apply resolve_inv in Hres as (u & p & Hu & Hu' & Hpass & Hp' & Hd & Hd' & ->).
  split; [done|]. exists (v_prefix v), (v_key v), u, p.
  split; [done|]. split.
  { rewrite Hp. by apply identity_key_inv. }
  split; [done|]. split; [done|]. split; [done|]. split; [done|].
  split; [apply placeholders_eq|].
  unfold PyStr.or_else in Hd.
  destruct (PyStr.truthy (getenv env (v_prefix v +:+ "_DOMAIN"))); auto.
Qed.

Lemma entry_provenance_witness :
  "https://ghe.corp.test" ≠ "".
Proof.
  refine (proj1 (entry_provenance
    [("GITHUB_DOMAIN", "https://ghe.corp.test"); ("GITHUB_EMAIL", "me@corp.test");
     ("GITHUB_PASS", "pw")]
    "https://ghe.corp.test"
    {[ "github_user" := "me@corp.test"; "github_pass" := "pw" ]} _)).
  vm_compute. reflexivity.
Defined.

(** X3. The domains of the result are exactly the domains some prefix
    resolves to at its first identity key: an entry can be overwritten by a
    later prefix, but a domain once written stays in the result. *)
Theorem result_domains (env : environ) (D : string) :
  D ∈ dom (build_sensitive_data env)
  ↔ ∃ P k e, first_identity_key env P k ∧ resolve env k P = Some (D, e).
Proof.
  rewrite elem_of_dom. split.
  - intros [sub (v & Hv & Hw)%entry_origin].
    exists (v_prefix v), (v_key v), sub. split; [by apply visit_first|].
    destruct (visits_seen _ _ _ _ Hv) as (_ & _ & _ & Hres). by rewrite <- Hres.
  - intros (P & k & e & Hfirst & Hres).
    destruct (prefix_visit env P k Hfirst) as [Hin _]. rewrite Hres in Hin.
    rewrite build_replay.
    destruct (last_write_dec (trace env) D) as [Hno|(l1 & v & l2 & e' & Heq & Hv & Hl2)].
    + destruct (Hno _ Hin). done.
    + rewrite Heq. erewrite replay_last; [by eexists|done..].
Qed.

Lemma result_domains_witness :
  "https://*.gitlab.com"
    ∈ dom (build_sensitive_data [("GITLAB_USER", "alice"); ("GITLAB_PASS", "s3cret")]).
Proof.
  apply result_domains.
  exists "GITLAB", "GITLAB_USER", (placeholders "GITLAB" "alice" "s3cret").
  split; [|reflexivity]. first_key (@nil string) ["GITLAB_PASS"].
Defined.

(** X4. The result has at most one entry per identity variable of the
    environment. *)
Theorem result_size_bound (env : environ) :
  size (build_sensitive_data env)
  ≤ length (filter (λ key, is_identity_key key) (fst <$> env)).
Proof.
  rewrite build_replay. unfold trace.
  assert (∀ vs c, size (foldl apply_write c vs) ≤ size c + length vs) as Hsize.
  { induction vs as [|v vs IH]; intros c; simpl; [lia|].
    etrans; [apply IH|]. unfold apply_write.
    destruct (v_write v) as [[d e]|]; [|lia].
    rewrite map_size_insert. destruct (c !! d); simpl; unfold id; lia. }
  assert (∀ keys seen, length (visits env seen keys)
                       ≤ length (filter (λ key, is_identity_key key) keys)) as Hlen.
  { induction keys as [|key keys IH]; intros seen; simpl; [done|].
    destruct (is_identity_key key) eqn:Hid; simpl.
    - rewrite filter_cons_True by (by rewrite Hid). simpl.
      case_bool_decide; [etrans; [apply IH|lia]|]. simpl.
      specialize (IH (seen ∪ {[PyStr.rsplit1_head "_"%char key]})). lia.
    - rewrite filter_cons_False by (rewrite Hid; intros []). apply IH. }
  etrans; [apply Hsize|]. rewrite map_size_empty. simpl. apply Hlen.
Qed.

(** X5. A prefix configured with [FOO_EMAIL] gets the placeholder
    [foo_user], not [foo_email]: when [FOO_EMAIL] is the only identity key,
    with non-empty value and password and a domain from the override or the
    static table, the result is the single entry
    [{d: {foo_user: e, foo_pass: p}}]. *)
Theorem email_identity_uses_user_placeholder (env : environ) (foo e p d : string) :
  getenv env (foo +:+ "_EMAIL") = Some e → e ≠ "" →
  getenv env (foo +:+ "_PASS") = Some p → p ≠ "" →
  PyStr.or_else (getenv env (foo +:+ "_DOMAIN")) (DOMAIN_MAP !! foo) = Some d →
  d ≠ "" →
  (∀ k, k ∈ fst <$> env → is_identity_key k = true → k = foo +:+ "_EMAIL") →
  build_sensitive_data env
  = {[ d := {[ PyStr.lower foo +:+ "_user" := e; PyStr.lower foo +:+ "_pass" := p ]} ]}.
Proof.
  intros He He' Hp Hp' Hd Hd' Honly. rewrite build_replay.
  rewrite (trace_single env (foo +:+ "_EMAIL"));
    [|by eapply getenv_Some_key|apply identity_key_email|done].
  rewrite prefix_of_email. simpl. unfold apply_write. simpl.
  rewrite (resolve_Some env _ foo e p d) by done.
  by rewrite placeholders_eq, insert_empty.
Qed.

Lemma email_identity_uses_user_placeholder_witness :
  build_sensitive_data
    [("MY_APP_EMAIL", "me@x.org"); ("MY_APP_DOMAIN", "https://app.test");
     ("MY_APP_PASS", "pw")]
  = {[ "https://app.test" := {[ "my_app_user" := "me@x.org"; "my_app_pass" := "pw" ]} ]}.
Proof.
  apply (email_identity_uses_user_placeholder
           [("MY_APP_EMAIL", "me@x.org"); ("MY_APP_DOMAIN", "https://app.test");
            ("MY_APP_PASS", "pw")]
           "MY_APP" "me@x.org" "pw" "https://app.test");
    try reflexivity; try discriminate.
  intros k H Hid.
  repeat (apply elem_of_cons in H as [->|H]; [done || discriminate Hid|]).
  by apply elem_of_nil in H.
Defined.

(** X6. The keys the loop treats as identity keys are exactly those of the
    form [P_USER] or [P_EMAIL], and the prefix it derives is that [P],
    whatever underscores [P] itself contains (the split is at the last
    underscore). *)
Theorem identity_key_prefix (key : string) :
  (is_identity_key key = true
   ↔ ∃ P, key = P +:+ "_USER" ∨ key = P +:+ "_EMAIL")
  ∧ ∀ P, key = P +:+ "_USER" ∨ key = P +:+ "_EMAIL" →
         PyStr.rsplit1_head "_"%char key = P.
Proof.
  split.
  - split.
    + intros Hid. exists (PyStr.rsplit1_head "_"%char key). by apply identity_key_inv.
    + intros [P [->| ->]]; [apply identity_key_user|apply identity_key_email].
  - intros P [->| ->]; [apply prefix_of_user|apply prefix_of_email].
Qed.

Lemma identity_key_prefix_witness :
  PyStr.rsplit1_head "_"%char "MY_STAGING_APP_USER" = "MY_STAGING_APP".
Proof.
  apply (proj2 (identity_key_prefix "MY_STAGING_APP_USER") "MY_STAGING_APP").
  left. reflexivity.
Defined.

(** ** The fixture [browser] *)

Section lower_letters.

(** Decides which characters [lower_ascii] sends to a given letter, by
    running through the 256 characters. *)
Ltac lower_cases c :=
  destruct c as [[] [] [] [] [] [] [] []]; vm_compute;
  (split; [intros H; first [discriminate H | by left | by right]
          |intros [H|H]; first [discriminate H | reflexivity]]).

Lemma lower_ascii_t (c : ascii) :
  PyStr.lower_ascii c = "t"%char ↔ c = "t"%char ∨ c = "T"%char.
Proof. lower_cases c. Qed.

Lemma lower_ascii_r (c : ascii) :
  PyStr.lower_ascii c = "r"%char ↔ c = "r"%char ∨ c = "R"%char.
Proof. lower_cases c. Qed.

Lemma lower_ascii_u (c : ascii) :
  PyStr.lower_ascii c = "u"%char ↔ c = "u"%char ∨ c = "U"%char.
Proof. lower_cases c. Qed.

Lemma lower_ascii_e (c : ascii) :
  PyStr.lower_ascii c = "e"%char ↔ c = "e"%char ∨ c = "E"%char.
Proof. lower_cases c. Qed.

(** The strings that lowercase to ["true"]. *)
Lemma lower_true (s : string) :
  PyStr.lower s = "true"
  ↔ ∃ c1 c2 c3 c4, s = String c1 (String c2 (String c3 (String c4 "")))
      ∧ (c1 = "t" ∨ c1 = "T")%char ∧ (c2 = "r" ∨ c2 = "R")%char
      ∧ (c3 = "u" ∨ c3 = "U")%char ∧ (c4 = "e" ∨ c4 = "E")%char.
Proof.
  split.
  - destruct s as [|c1 [|c2 [|c3 [|c4 [|c5 s]]]]]; simpl; try discriminate.
    intros [= H1 H2 H3 H4]. exists c1, c2, c3, c4.
    apply lower_ascii_t in H1. apply lower_ascii_r in H2.
    apply lower_ascii_u in H3. apply lower_ascii_e in H4. done.
  - intros (c1 & c2 & c3 & c4 & -> & H1 & H2 & H3 & H4). simpl.
    apply lower_ascii_t in H1. apply lower_ascii_r in H2.
    apply lower_ascii_u in H3. apply lower_ascii_e in H4. congruence.
Qed.

End lower_letters.

(** X7. The fixture [browser] runs headless exactly when [HEADLESS] is
    absent from the environment or its value is ["true"] in any mix of
    upper and lower case; every other value, the empty string included,
    gives a visible browser.  The browser has no profile directory. *)
Theorem browser_headless (env : environ) :
  (headless (browser env) = true
   ↔ getenv env "HEADLESS" = None
     ∨ ∃ c1 c2 c3 c4,
         getenv env "HEADLESS" = Some (String c1 (String c2 (String c3 (String c4 ""))))
         ∧ (c1 = "t" ∨ c1 = "T")%char ∧ (c2 = "r" ∨ c2 = "R")%char
         ∧ (c3 = "u" ∨ c3 = "U")%char ∧ (c4 = "e" ∨ c4 = "E")%char)
  ∧ user_data_dir (browser env) = None.
Proof.
  split; [|done]. unfold browser, getenv_default. simpl.
  rewrite String.eqb_eq. destruct (getenv env "HEADLESS") as [v|].
  - rewrite lower_true. split.
    + intros (c1 & c2 & c3 & c4 & -> & H). right. by exists c1, c2, c3, c4.
    + intros [|(c1 & c2 & c3 & c4 & [= ->] & H)]; [done|]. by exists c1, c2, c3, c4.
  - split; [by left|done].
Qed.

Lemma browser_headless_witness :
  headless (browser [("HEADLESS", "True")]) = true
  ∧ headless (browser [("HEADLESS", "")]) = false
  ∧ headless (browser [("HEADLESS", "1")]) = false.
Proof.
  split; [|split; reflexivity].
  apply (proj1 (browser_headless [("HEADLESS", "True")])). right.
  exists "T"%char, "r"%char, "u"%char, "e"%char. repeat split; auto.
Defined.

(** ** The command line *)

Section main_facts.

Implicit Types (args : Args).

Lemma SERVICE_URLS_nonempty (s u : string) : SERVICE_URLS !! s = Some u → u ≠ "".
Proof.
  unfold SERVICE_URLS. intros H.
  repeat (apply lookup_insert_Some in H as [[_ <-]|[_ H]]; [done|]).
  by rewrite lookup_empty in H.
Qed.

Lemma SERVICE_URLS_key_nonempty (s : string) : is_Some (SERVICE_URLS !! s) → s ≠ "".
Proof.
  unfold SERVICE_URLS. intros [u H].
  repeat (apply lookup_insert_Some in H as [[<- _]|[_ H]]; [done|]).
  by rewrite lookup_empty in H.
Qed.

End main_facts.

(** X8. [setup_profile] is only ever called with a non-empty URL and a
    non-empty profile name.  The URL is [--url] when that is given and not
    empty, otherwise the table's URL for [--service]; the name is
    [--profile-name] when given and not empty, otherwise [<service>-profile]. *)
Theorem setup_arguments (args : Args) (u n : string) :
  main_dispatch args = RunSetup u n →
  arg_list args = false
  ∧ u ≠ "" ∧ n ≠ ""
  ∧ (arg_url args = Some u
     ∨ (PyStr.truthy (arg_url args) = false
        ∧ ∃ s, arg_service args = Some s ∧ SERVICE_URLS !! s = Some u))
  ∧ (arg_profile_name args = Some n
     ∨ (PyStr.truthy (arg_profile_name args) = false
        ∧ ∃ s, arg_service args = Some s ∧ s ≠ "" ∧ n = s +:+ "-profile")).
Proof.
  unfold main_dispatch. destruct args as [sv ur pn li]; simpl.
  destruct li; [done|].
  destruct ur as [[|cu ru]|]; destruct sv as [[|cs s]|]; simpl; try done;
    try (destruct (SERVICE_URLS !! String cs s) as [[|cu ru]|] eqn:Htab; try done);
    destruct pn as [[|cn rn]|]; simpl; try done; intros [= <- <-];
    (split; [done|]); (split; [done|]);
    (split; [by rewrite ?app_cons|]);
    (split; [first [by left | right; split; [done|]; by eexists]
            |first [by left
                   | right; split; [done|]; eexists; split; [done|]; by split]]).
Qed.

Lemma setup_arguments_witness :
  arg_list (MkArgs (Some "github") (Some "") None false) = false
  ∧ "https://github.com/login" ≠ "" ∧ "github-profile" ≠ "".
Proof.
  destruct (setup_arguments (MkArgs (Some "github") (Some "") None false)
              "https://github.com/login" "github-profile" eq_refl)
    as (H1 & H2 & H3 & _).
  exact (conj H1 (conj H2 H3)).
Defined.

(** X9. With a [--service] that argparse accepts, [main] never stops on a
    parser error or a missing table entry: it lists the profiles when
    [--list] is given, and otherwise runs the setup, by default at the
    table's URL with the profile name [<service>-profile]. *)
Theorem service_never_rejected (args : Args) (s : string) :
  arg_service args = Some s → is_Some (SERVICE_URLS !! s) →
  (arg_list args = true → main_dispatch args = ListProfiles)
  ∧ (arg_list args = false → ∃ u n, main_dispatch args = RunSetup u n)
  ∧ (arg_list args = false →
     PyStr.truthy (arg_url args) = false →
     PyStr.truthy (arg_profile_name args) = false →
     ∃ u, SERVICE_URLS !! s = Some u
          ∧ main_dispatch args = RunSetup u (s +:+ "-profile")).
Proof.
  intros Hs Htab. pose proof (SERVICE_URLS_key_nonempty s Htab) as Hne.
  destruct Htab as [u Hu]. pose proof (SERVICE_URLS_nonempty s u Hu) as Hu'.
  destruct s as [|c s]; [done|]. destruct u as [|cu u]; [done|].
  unfold main_dispatch. rewrite Hs. simpl. rewrite Hu.
  split; [by intros ->|]. split.
  - intros ->. destruct (arg_url args) as [[|c1 r1]|]; simpl;
      destruct (arg_profile_name args) as [[|c2 r2]|]; eauto.
  - intros -> Hurl Hname. exists (String cu u). split; [done|].
    destruct (arg_url args) as [[|c1 r1]|]; try done;
      destruct (arg_profile_name args) as [[|c2 r2]|]; try done.
Qed.

Lemma service_never_rejected_witness :
  main_dispatch (MkArgs (Some "gitlab") None None false)
  = RunSetup "https://gitlab.com/users/sign_in" "gitlab-profile".
Proof.
  destruct (service_never_rejected (MkArgs (Some "gitlab") None None false) "gitlab"
              eq_refl ltac:(by eexists)) as (_ & _ & H).
  destruct (H eq_refl eq_refl eq_refl) as (u & Hu & Hrun).
  vm_compute in Hu. injection Hu as <-. exact Hrun.
Defined.

(** X10. Without [--list] and without [--service], [main] stops on a parser
    error, before any file or browser is touched, exactly in two cases: no
    usable [--url] ("Either --service or --url is required"), or a usable
    [--url] without a usable [--profile-name] ("--profile-name is required
    when using --url").  Otherwise it runs the setup with the two values as
    given. *)
Theorem url_only_requirements (args : Args) :
  arg_list args = false → arg_service args = None →
  (PyStr.truthy (arg_url args) = false →
   main_dispatch args = ParserError "Either --service or --url is required")
  ∧ (PyStr.truthy (arg_url args) = true →
     PyStr.truthy (arg_profile_name args) = false →
     main_dispatch args = ParserError "--profile-name is required when using --url")
  ∧ (∀ u n, arg_url args = Some u → u ≠ "" → arg_profile_name args = Some n → n ≠ "" →
     main_dispatch args = RunSetup u n).
Proof.
  intros Hlist Hs. unfold main_dispatch. rewrite Hlist, Hs. simpl.
  rewrite andb_false_r. split; [|split].
  - by destruct (arg_url args) as [[|c r]|].
  - destruct (arg_url args) as [[|c r]|]; try done.
    by destruct (arg_profile_name args) as [[|c' r']|].
  - intros u n -> Hu -> Hn. by destruct u, n.
Qed.

Lemma url_only_requirements_witness :
  main_dispatch (MkArgs None (Some "https://staging.example.com") None false)
  = ParserError "--profile-name is required when using --url".
Proof.
  apply (url_only_requirements
           (MkArgs None (Some "https://staging.example.com") None false));
    reflexivity.
Defined.

(** ** Profile store: listing and fixture together *)

Section store_facts.

Implicit Types (home : Path) (fs : filesystem) (n : string).
Implicit Types (es : list (string * node)).

(** What [list_profiles] prints for a well-formed profile root. *)
Lemma list_profiles_dir home fs es :
  stat fs (PROFILES_DIR home) = Some (Dir es) → listing_ok es →
  list_profiles home fs = inr (listing_output home (merge_sort String.le (subdirs es))).
Proof.
  intros Hroot Hok. unfold list_profiles, path_exists, iterdir. rewrite Hroot. simpl.
  rewrite (filter_is_dir fs _ es Hroot Hok).
  destruct (subdirs es) as [|n ns] eqn:Hsub; [done|].
  rewrite fmap_cons. rewrite <- fmap_cons.
  rewrite (list_fmap_compose PyPath.name (λ n, "  - " +:+ n)), sorted_children.
  unfold listing_output.
  destruct (merge_sort String.le (n :: ns)) as [|m ms] eqn:Hms; [|done].
  pose proof (merge_sort_Permutation String.le (n :: ns)) as Hperm.
  rewrite Hms in Hperm. by apply Permutation_nil_cons in Hperm.
Qed.

(** The lines that name a profile are the names, each after ["  - "]. *)
Lemma listing_output_entry home (names : list string) n :
  "  - " +:+ n ∈ listing_output home names ↔ n ∈ names.
Proof.
  unfold listing_output. destruct names as [|m ms].
  - split; [|by intros ?%elem_of_nil].
    intros [H|H%elem_of_nil]%elem_of_cons; [|done].
    rewrite !app_cons in H. discriminate H.
  - rewrite elem_of_cons, list_elem_of_fmap. split.
    + intros [H|(x & H & Hx)].
      * rewrite !app_cons in H. discriminate H.
      * rewrite !app_cons, !app_nil_l in H. by injection H as ->.
    + intros Hn. right. by exists n.
Qed.

Lemma subdirs_entry es n : n ∈ subdirs es ↔ ∃ entries, (n, Dir entries) ∈ es.
Proof.
  unfold subdirs. rewrite list_elem_of_fmap. split.
  - intros ([m c] & -> & [Hdir Hin]%list_elem_of_filter). simpl in *.
    destruct c as [|entries]; [done|]. eauto.
  - intros [entries Hin]. exists (n, Dir entries). split; [done|].
    by apply list_elem_of_filter.
Qed.

Lemma get_profile_path_child home n :
  PyPath.kept n = true → PyStr.has_char "/" n = false →
  get_profile_path home n = PyPath.child (PROFILES_DIR home) n.
Proof.
  intros Hkept Hsep. unfold get_profile_path. fold (PROFILES_DIR home).
  by apply truediv_component.
Qed.

End store_facts.

(** X11. For a profile root that is a directory with a well-formed
    listing, the names [list_profiles] prints are exactly the
    subdirectories of the root, and every printed name is accepted by the
    fixture [browser_with_profile] when browser-use is importable: it does
    not skip, and it yields a visible browser on the directory of that
    name. *)
Theorem printed_profile_is_accepted (home : Path) (fs : filesystem)
    (es : list (string * node)) (out : list string) (n : string) :
  stat fs (PROFILES_DIR home) = Some (Dir es) → listing_ok es →
  list_profiles home fs = inr out →
  ("  - " +:+ n ∈ out ↔ n ∈ subdirs es)
  ∧ ("  - " +:+ n ∈ out →
     is_dir fs (get_profile_path home n) = true
     ∧ browser_with_profile true home fs n
       = Yielded (MkBrowser false (Some (PyPath.str (get_profile_path home n))))).
Proof.
  intros Hroot Hok Hout.
  rewrite (list_profiles_dir home fs es Hroot Hok) in Hout. injection Hout as <-.
  assert ("  - " +:+ n ∈ listing_output home (merge_sort String.le (subdirs es))
          ↔ n ∈ subdirs es) as Hiff
    by (by rewrite listing_output_entry, merge_sort_Permutation).
  split; [done|]. intros Hin%Hiff.
  apply subdirs_entry in Hin as [entries Hin].
  destruct Hok as [Hnd Hvalid]. rewrite Forall_forall in Hvalid.
  assert (valid_entry_name n = true) as Hn.
  { apply Hvalid. apply list_elem_of_fmap. by exists (n, Dir entries). }
  destruct (valid_entry_name_component n Hn) as [Hkept Hsep].
  assert (stat fs (get_profile_path home n) = Some (Dir entries)) as Hstat.
  { rewrite get_profile_path_child, stat_child, Hroot by
      (done || by apply valid_entry_name_not_parent).
    by apply dir_lookup_NoDup. }
  unfold is_dir, browser_with_profile, path_exists. by rewrite Hstat.
Qed.

Lemma printed_profile_is_accepted_witness :
  browser_with_profile true (PyPath.MkPath "/" ["home"; "u"])
    (FileSystem (Dir [("home", Dir [("u", Dir [(".browser-use-profiles",
        Dir [("b", Dir []); ("notes.txt", File); ("a", Dir [("Default", File)])])])])])
       [])
    "a"
  = Yielded (MkBrowser false (Some "/home/u/.browser-use-profiles/a")).
Proof.
  refine (proj2 (proj2 (printed_profile_is_accepted
    (PyPath.MkPath "/" ["home"; "u"])
    (FileSystem (Dir [("home", Dir [("u", Dir [(".browser-use-profiles",
        Dir [("b", Dir []); ("notes.txt", File); ("a", Dir [("Default", File)])])])])])
       [])
    [("b", Dir []); ("notes.txt", File); ("a", Dir [("Default", File)])]
    _ "a" eq_refl _ eq_refl) _)).
  - split; [apply (bool_decide_eq_true_1 _); vm_compute; reflexivity|repeat constructor].
  - vm_compute. right. left.
Defined.

(** X12. A profile name that starts with ['/'] is not placed under the
    profile root: the path is the name itself, parsed, whatever the home
    directory is. *)
Theorem absolute_profile_name (home : Path) (n r : string) :
  n = String "/"%char r →
  get_profile_path home n = PyPath.parse n
  ∧ PyPath.root (get_profile_path home n) ≠ "".
Proof.
  intros ->.
  assert (PyPath.root (PyPath.parse (String "/"%char r)) ≠ "") as Hroot.
  { unfold PyPath.parse. destruct r as [|c1 r1]; [done|].
    destruct c1 as [[] [] [] [] [] [] [] []]; try done.
    destruct r1 as [|c2 r2]; [done|].
    destruct c2 as [[] [] [] [] [] [] [] []]; done. }
  assert (get_profile_path home (String "/"%char r) = PyPath.parse (String "/"%char r)) as Heq.
  { unfold get_profile_path. unfold PyPath.truediv at 1.
    apply String.eqb_neq in Hroot. by rewrite Hroot. }
  split; [done|]. by rewrite Heq.
Qed.

Lemma absolute_profile_name_witness :
  get_profile_path (PyPath.MkPath "/" ["home"; "u"]) "/etc/ssl"
  = PyPath.MkPath "/" ["etc"; "ssl"].
Proof.
  apply (absolute_profile_name (PyPath.MkPath "/" ["home"; "u"]) "/etc/ssl" "etc/ssl").
  reflexivity.
Defined.

(** X13. Two different profile names that are single path components get
    different paths: profiles never share a directory. *)
Theorem profile_paths_distinct (home : Path) (n1 n2 : string) :
  PyPath.kept n1 = true → PyStr.has_char "/" n1 = false →
  PyPath.kept n2 = true → PyStr.has_char "/" n2 = false →
  get_profile_path home n1 = get_profile_path home n2 → n1 = n2.
Proof.
  intros Hk1 Hs1 Hk2 Hs2 Heq.
  rewrite !get_profile_path_child in Heq by done.
  apply (f_equal PyPath.name) in Heq. by rewrite !name_child in Heq.
Qed.

Lemma profile_paths_distinct_witness :
  get_profile_path (PyPath.MkPath "/" ["home"; "u"]) "github-2fa"
  ≠ get_profile_path (PyPath.MkPath "/" ["home"; "u"]) "gitlab-2fa".
Proof.
  intros H.
  apply (profile_paths_distinct (PyPath.MkPath "/" ["home"; "u"])
           "github-2fa" "gitlab-2fa") in H; [discriminate H|reflexivity..].
Defined.

(** ** The file tree under [mkdir] *)

Section tree_facts.

Implicit Types (t x : node) (es : list (string * node)) (n c m : string).
Implicit Types (cp q names : list string).

Lemma dir_lookup_update_first_eq c (f : node → node) es :
  dir_lookup c (update_first c f es) = f <$> dir_lookup c es.
Proof.
  induction es as [|[m x] es IH]; [done|]. simpl.
  destruct (String.eqb m c) eqn:Hm; simpl; by rewrite Hm.
Qed.

Lemma dir_lookup_update_first_ne c m (f : node → node) es :
  m ≠ c → dir_lookup m (update_first c f es) = dir_lookup m es.
Proof.
  intros Hne. induction es as [|[k x] es IH]; [done|]. simpl.
  destruct (String.eqb_spec k c) as [->|Hk]; simpl.
  - apply not_eq_sym in Hne. apply String.eqb_neq in Hne. by rewrite Hne.
  - by rewrite IH.
Qed.

Lemma dir_lookup_app_new es n m x :
  dir_lookup m (es ++ [(n, x)])
  = match dir_lookup m es with
    | Some y => Some y
    | None => if String.eqb n m then Some x else None
    end.
Proof.
  induction es as [|[k y] es IH]; simpl; [done|].
  by destruct (String.eqb k m).
Qed.

Lemma get_snoc t cp n :
  get t (cp ++ [n])
  = match get t cp with
    | Some (Dir es) => dir_lookup n es
    | _ => None
    end.
Proof.
  revert t. induction cp as [|c cp IH]; intros t; simpl.
  - destruct t as [|es]; [done|]. by destruct (dir_lookup n es).
  - destruct t as [|es]; [done|]. destruct (dir_lookup c es); [apply IH|done].
Qed.

(** The directory that receives the new entry. *)
Lemma get_add_dir_at t cp n es :
  get t cp = Some (Dir es) →
  get (add_dir cp n t) cp = Some (Dir (es ++ [(n, Dir [])])).
Proof.
  revert t. induction cp as [|c cp IH]; intros t; simpl.
  - intros [= ->]. done.
  - destruct t as [|es0]; [done|]. simpl.
    rewrite dir_lookup_update_first_eq.
    destruct (dir_lookup c es0) as [x|]; [|done]. simpl. apply IH.
Qed.

(** Whatever existed before exists afterwards, and is of the same kind. *)
Lemma get_add_dir_kind t cp n q x :
  get t q = Some x →
  ∃ x', get (add_dir cp n t) q = Some x' ∧ node_is_dir x' = node_is_dir x.
Proof.
  revert t q. induction cp as [|c0 cp IH]; intros t q.
  - destruct t as [|es]; simpl; [eauto|].
    destruct q as [|c q]; simpl.
    + intros [= <-]. eauto.
    + rewrite dir_lookup_app_new. destruct (dir_lookup c es) as [y|]; [eauto|done].
  - destruct t as [|es]; simpl; [eauto|].
    destruct q as [|c q]; simpl.
    + intros [= <-]. eauto.
    + destruct (String.eqb_spec c c0) as [->|Hne].
      * rewrite dir_lookup_update_first_eq.
        destruct (dir_lookup c0 es) as [y|]; [|done]. simpl. apply IH.
      * rewrite dir_lookup_update_first_ne by done.
        destruct (dir_lookup c es) as [y|]; [eauto|done].
Qed.

(** A path that resolved before resolves to the same place afterwards. *)
Lemma locate_add_dir t cp0 n cp names cp' :
  locate t cp names = inr cp' →
  locate (add_dir cp0 n t) cp names = inr cp'.
Proof.
  revert cp. induction names as [|k names IH]; intros cp; simpl; [done|].
  destruct (get t cp) as [[|es]|] eqn:Hcp; try done.
  destruct (get_add_dir_kind t cp0 n cp _ Hcp) as (x' & Hx' & Hkind).
  rewrite Hx'. destruct x' as [|es']; [done|].
  destruct (String.eqb k ".."); [apply IH|].
  destruct (dir_lookup k es) as [y|] eqn:Hk; [|done].
  assert (get t (cp ++ [k]) = Some y) as Hy by (by rewrite get_snoc, Hcp).
  destruct (get_add_dir_kind t cp0 n _ _ Hy) as (y' & Hy' & _).
  rewrite get_snoc, Hx' in Hy'. rewrite Hy'. apply IH.
Qed.


Lemma ancestors_snoc t cp n es x (acc : list node) :
  get t cp = Some (Dir es) → dir_lookup n es = Some x →
  ancestors t (cp ++ [n]) acc = Dir es :: ancestors t cp acc.
Proof.
  revert t acc. induction cp as [|c cp IH]; intros t acc; simpl.
  - intros [= ->] Hn. by rewrite Hn.
  - destruct t as [|es0]; [done|]. destruct (dir_lookup c es0) as [y|]; [|done].
    apply IH.
Qed.

(** [walk], which keeps the ancestors, and [locate], which keeps the entry
    names, resolve alike. *)
Lemma walk_locate t names cp (cur : node) :
  get t cp = Some cur →
  walk (ancestors t cp []) cur names
  = match locate t cp names with
    | inr cp' => get t cp'
    | inl _ => None
    end.
Proof.
  revert cp cur. induction names as [|k names IH]; intros cp cur Hcur; simpl.
  - by rewrite Hcur.
  - rewrite Hcur. destruct cur as [|es]; [done|].
    destruct (String.eqb k "..") eqn:Hk.
    + destruct cp as [|c cp _] using rev_ind; simpl.
      * exact (IH [] (Dir es) Hcur).
      * rewrite get_snoc in Hcur.
        destruct (get t cp) as [[|es']|] eqn:Hcp; try done.
        rewrite (ancestors_snoc t cp c es' (Dir es)) by done.
        rewrite removelast_last. by apply IH.
    + destruct (dir_lookup k es) as [y|] eqn:Hy; [|done].
      rewrite <- (ancestors_snoc t cp k es y) by done.
      apply IH. by rewrite get_snoc, Hcur.
Qed.

Lemma stat_locate (fs : filesystem) (p : Path) :
  stat fs p
  = match locate (fs_root fs) [] (abs_names fs p) with
    | inr cp => get (fs_root fs) cp
    | inl _ => None
    end.
Proof. unfold stat. fold (abs_names fs p). by apply (walk_locate _ _ []). Qed.

(** A path that leads to a node resolves, to the place of that node. *)
Lemma stat_Some_locate (fs : filesystem) (p : Path) x :
  stat fs p = Some x →
  ∃ cp, locate (fs_root fs) [] (abs_names fs p) = inr cp ∧ get (fs_root fs) cp = Some x.
Proof.
  rewrite stat_locate. destruct (locate _ _ _) as [e|cp]; [done|]. eauto.
Qed.

Lemma abs_names_child (fs : filesystem) (d : Path) n :
  abs_names fs (PyPath.child d n) = abs_names fs d ++ [n].
Proof.
  unfold abs_names, PyPath.child. simpl.
  destruct (String.eqb (PyPath.root d) ""); [by rewrite app_assoc|done].
Qed.

End tree_facts.

(** ** [mkdir] on an entry of a directory *)

Section mkdir_facts.

Implicit Types (fs : filesystem) (d : Path) (n : string).
Implicit Types (es : list (string * node)) (cp : list string).

Lemma os_mkdir_child fs d n cp es :
  locate (fs_root fs) [] (abs_names fs d) = inr cp →
  get (fs_root fs) cp = Some (Dir es) →
  n ≠ ".." →
  os_mkdir fs (PyPath.child d n)
  = match dir_lookup n es with
    | Some _ => inl EEXIST
    | None => inr (FileSystem (add_dir cp n (fs_root fs)) (fs_cwd fs))
    end.
Proof.
  intros Hloc Hget Hne. unfold os_mkdir. rewrite abs_names_child.
  destruct (abs_names fs d ++ [n]) as [|c rest] eqn:Hn;
    [by destruct (abs_names fs d)|].
  cbv zeta. rewrite <- Hn, removelast_last, last_last, Hloc, Hget.
  apply String.eqb_neq in Hne. by rewrite Hne.
Qed.


(** The directory that received the entry, seen through [stat]. *)
Lemma stat_after_add fs d cp es n :
  locate (fs_root fs) [] (abs_names fs d) = inr cp →
  get (fs_root fs) cp = Some (Dir es) →
  stat (FileSystem (add_dir cp n (fs_root fs)) (fs_cwd fs)) d
  = Some (Dir (es ++ [(n, Dir [])])).
Proof.
  intros Hloc Hget. rewrite stat_locate. simpl.
  change (abs_names (FileSystem (add_dir cp n (fs_root fs)) (fs_cwd fs)) d)
    with (abs_names fs d).
  rewrite (locate_add_dir _ cp n _ _ _ Hloc). by apply get_add_dir_at.
Qed.

Lemma mkdir_parents_created (fuel : nat) fs (p : Path) (ok : bool) fs' :
  os_mkdir fs p = inr fs' → mkdir_parents fuel fs p ok = (fs', None).
Proof. intros H. destruct fuel; simpl; by rewrite H. Qed.





(** [mkdir(parents=True, exist_ok=True)] on a new entry of an existing
    directory. *)
Lemma mkdir_new_entry fs d n es :
  stat fs d = Some (Dir es) → n ≠ ".." → dir_lookup n es = None →
  ∃ fs', mkdir fs (PyPath.child d n) true true = (fs', None)
    ∧ fs_cwd fs' = fs_cwd fs
    ∧ stat fs' d = Some (Dir (es ++ [(n, Dir [])])).
Proof.
  intros (cp & Hloc & Hget)%stat_Some_locate Hne Hnone.
  eexists. split; [|split; [|by apply (stat_after_add fs d cp es n)]]; [|done].
  unfold mkdir. apply mkdir_parents_created.
  by rewrite (os_mkdir_child fs d n cp es), Hnone.
Qed.



End mkdir_facts.

(** ** [setup_profile] *)

Section setup_facts.

Implicit Types (home : Path) (fs : filesystem) (n url : string).
Implicit Types (es : list (string * node)).


Lemma profile_dir_child home n :
  valid_entry_name n = true →
  PyPath.truediv (PROFILES_DIR home) n = PyPath.child (PROFILES_DIR home) n.
Proof.
  intros [Hkept Hsep]%valid_entry_name_component. by apply truediv_component.
Qed.

(** A run in which [mkdir] succeeds. *)
Lemma setup_profile_ok home fs url n fs' :
  mkdir fs (PyPath.truediv (PROFILES_DIR home) n) true true = (fs', None) →
  sr_fs (setup_profile true home fs url n) = fs'
  ∧ sr_raised (setup_profile true home fs url n) = None
  ∧ browser_events (sr_events (setup_profile true home fs url n))
    = [ Launch (MkBrowser false (Some (PyPath.str (get_profile_path home n))));
        NewContext; NewPage; Goto url;
        Input "Press Enter after completing login..."; Close ].
Proof.
  intros H. unfold setup_profile. cbv beta iota zeta delta [negb]. rewrite H.
  repeat split.
Qed.


(** A run that adds the profile to an existing root. *)
Lemma setup_profile_new home fs es url n :
  valid_entry_name n = true →
  stat fs (PROFILES_DIR home) = Some (Dir es) →
  dir_lookup n es = None →
  sr_raised (setup_profile true home fs url n) = None
  ∧ fs_cwd (sr_fs (setup_profile true home fs url n)) = fs_cwd fs
  ∧ stat (sr_fs (setup_profile true home fs url n)) (PROFILES_DIR home)
    = Some (Dir (es ++ [(n, Dir [])]))
  ∧ browser_events (sr_events (setup_profile true home fs url n))
    = [ Launch (MkBrowser false (Some (PyPath.str (get_profile_path home n))));
        NewContext; NewPage; Goto url;
        Input "Press Enter after completing login..."; Close ].
Proof.
  intros Hn Hroot Hnone.
  destruct (mkdir_new_entry fs (PROFILES_DIR home) n es Hroot
              (valid_entry_name_not_parent n Hn) Hnone) as (fs' & Hmk & Hcwd & Hst).
  rewrite <- profile_dir_child in Hmk by done.
  destruct (setup_profile_ok home fs url n fs' Hmk) as (-> & -> & ->). done.
Qed.

Lemma valid_entry_profile_path home n :
  valid_entry_name n = true →
  get_profile_path home n = PyPath.child (PROFILES_DIR home) n.
Proof.
  intros [Hkept Hsep]%valid_entry_name_component. by apply get_profile_path_child.
Qed.




End setup_facts.

(** X14. With browser-use installed, a valid profile name that the profile
    root does not list yet, and a root that is a directory:
    [setup_profile] raises nothing, adds the profile to the root as an
    empty directory beside the entries that were there, and drives one
    visible browser bound to that directory: launch, context, page, the
    login URL, the wait for Enter, close. *)
Theorem setup_creates_profile (home : Path) (fs : filesystem)
    (es : list (string * node)) (url n : string) :
  valid_entry_name n = true →
  stat fs (PROFILES_DIR home) = Some (Dir es) →
  dir_lookup n es = None →
  sr_raised (setup_profile true home fs url n) = None
  ∧ stat (sr_fs (setup_profile true home fs url n)) (PROFILES_DIR home)
    = Some (Dir (es ++ [(n, Dir [])]))
  ∧ stat (sr_fs (setup_profile true home fs url n)) (get_profile_path home n)
    = Some (Dir [])
  ∧ browser_events (sr_events (setup_profile true home fs url n))
    = [ Launch (MkBrowser false (Some (PyPath.str (get_profile_path home n))));
        NewContext; NewPage; Goto url;
        Input "Press Enter after completing login..."; Close ].
Proof.
  intros Hn Hroot Hnone.
  destruct (setup_profile_new home fs es url n Hn Hroot Hnone) as (Hr & _ & Hst & Hev).
  split; [done|]. split; [done|]. split; [|done].
  rewrite valid_entry_profile_path, stat_child, Hst, dir_lookup_app_new, Hnone
    by (done || by apply valid_entry_name_not_parent).
  by rewrite String.eqb_refl.
Qed.

Lemma setup_creates_profile_witness :
  stat (sr_fs (setup_profile true (PyPath.MkPath "/" ["home"; "u"])
                 (FileSystem (Dir [("home", Dir [("u", Dir [(".browser-use-profiles",
                    Dir [("b", Dir []); ("notes.txt", File)])])])]) [])
                 "https://github.com/login" "github-2fa"))
       (get_profile_path (PyPath.MkPath "/" ["home"; "u"]) "github-2fa")
  = Some (Dir []).
Proof.
  refine (proj1 (proj2 (proj2 (setup_creates_profile
    (PyPath.MkPath "/" ["home"; "u"])
    (FileSystem (Dir [("home", Dir [("u", Dir [(".browser-use-profiles",
       Dir [("b", Dir []); ("notes.txt", File)])])])]) [])
    [("b", Dir []); ("notes.txt", File)]
    "https://github.com/login" "github-2fa" eq_refl eq_refl eq_refl)))).
Defined.

(** X15. Under the same conditions, every other profile is left as it was,
    with all it contains. *)
Theorem setup_preserves_other_profiles (home : Path) (fs : filesystem)
    (es : list (string * node)) (url n m : string) :
  valid_entry_name n = true →
  stat fs (PROFILES_DIR home) = Some (Dir es) →
  dir_lookup n es = None →
  valid_entry_name m = true → m ≠ n →
  stat (sr_fs (setup_profile true home fs url n)) (get_profile_path home m)
  = stat fs (get_profile_path home m).
Proof.
  intros Hn Hroot Hnone Hm Hne.
  destruct (setup_profile_new home fs es url n Hn Hroot Hnone) as (_ & _ & Hst & _).
  rewrite valid_entry_profile_path, !stat_child, Hst, Hroot, dir_lookup_app_new
    by (done || by apply valid_entry_name_not_parent).
  destruct (dir_lookup m es); [done|].
  apply not_eq_sym in Hne. apply String.eqb_neq in Hne. by rewrite Hne.
Qed.

Lemma setup_preserves_other_profiles_witness :
  stat (sr_fs (setup_profile true (PyPath.MkPath "/" ["home"; "u"])
                 (FileSystem (Dir [("home", Dir [("u", Dir [(".browser-use-profiles",
                    Dir [("b", Dir [("Cookies", File)])])])])]) [])
                 "https://github.com/login" "github-2fa"))
       (get_profile_path (PyPath.MkPath "/" ["home"; "u"]) "b")
  = Some (Dir [("Cookies", File)]).
Proof.
  refine (eq_trans (setup_preserves_other_profiles
    (PyPath.MkPath "/" ["home"; "u"])
    (FileSystem (Dir [("home", Dir [("u", Dir [(".browser-use-profiles",
       Dir [("b", Dir [("Cookies", File)])])])])]) [])
    [("b", Dir [("Cookies", File)])]
    "https://github.com/login" "github-2fa" "b" eq_refl eq_refl eq_refl eq_refl _) _).
  - discriminate.
  - reflexivity.
Defined.










